(** * Mafia agents: the request dispatcher and the per-agent prompt logic

    A shallow embedding of [api_clients.py] ([UnifiedLLMClient]) and
    [models.py] ([Player]), and the properties of the design document
    that can be settled on it.

    Conventions.
    - A Python [str] is a sequence of Unicode code points: [pystr] is
      [list N].  String literals of the source are written [lit "..."];
      a double quote is [dq], a line feed is [nl].
    - A Python [int] is a [Z]; [str] of an integer is its decimal
      text.
    - An operation that can raise returns a [result]; an operation with
      side effects threads a [World] (the files under the working
      directory and the trace of external calls).
    - Appending to a file can fail: when the file is opened, as the
      runtime says, and when the text is encoded, on a surrogate.
    - Console output ([print]) is not modelled. *)

From Stdlib Require Import String Ascii DecimalString.
From Stdlib Require Import List NArith ZArith Bool Lia.
From Stdlib Require Import Permutation.
From Stdlib Require DecimalPos DecimalZ.
Import ListNotations.
Local Open Scope list_scope.

(* ===================================================================== *)
(** * Python strings *)
(* ===================================================================== *)

Definition pystr := list N.

(** A literal of the source (ASCII text) as a sequence of code points. *)
Definition lit (s : string) : pystr :=
  map N_of_ascii (list_ascii_of_string s).

Definition nl : pystr := [10%N].
Definition dq : pystr := [34%N].

Fixpoint str_eqb (a b : pystr) : bool :=
  match a, b with
  | [], [] => true
  | x :: a', y :: b' => N.eqb x y && str_eqb a' b'
  | _, _ => false
  end.

(** Truth value of a [str]: the empty string is false. *)
Definition truthy (s : pystr) : bool :=
  match s with [] => false | _ :: _ => true end.

(** Truth value of an [Optional[str]]: [None] and the empty string are false. *)
Definition truthy_opt (o : option pystr) : bool :=
  match o with None => false | Some s => truthy s end.

(** [str(n)] for an [int]. *)
Definition str_of_int (z : Z) : pystr :=
  lit (NilZero.string_of_int (Z.to_int z)).

(** [sep.join(xs)]. *)
Fixpoint join (sep : pystr) (xs : list pystr) : pystr :=
  match xs with
  | [] => []
  | [x] => x
  | x :: rest => x ++ sep ++ join sep rest
  end.

(** [s.startswith(p)]. *)
Fixpoint startswith (p s : pystr) : bool :=
  match p, s with
  | [], _ => true
  | x :: p', y :: s' => N.eqb x y && startswith p' s'
  | _ :: _, [] => false
  end.

(** [s.replace(old, new)] for a non-empty [old]: occurrences are found
    left to right and do not overlap.  [skip] counts the code points of
    a match that are still to be dropped. *)
Fixpoint replace_from (old new : pystr) (skip : nat) (s : pystr) : pystr :=
  match s with
  | [] => []
  | c :: s' =>
      match skip with
      | S k => replace_from old new k s'
      | O =>
          if startswith old s
          then new ++ replace_from old new (Nat.pred (length old)) s'
          else c :: replace_from old new O s'
      end
  end.

(** [s.replace(old, new)]; with an empty [old] Python puts [new] before
    every code point and at the end. *)
Definition replace (old new s : pystr) : pystr :=
  match old with
  | [] => new ++ flat_map (fun c => c :: new) s
  | _ :: _ => replace_from old new O s
  end.

(** [c.isspace()] for one code point (CPython's whitespace table). *)
Definition isspace (c : N) : bool :=
  (((9 <=? c) && (c <=? 13)) || ((28 <=? c) && (c <=? 32))
   || (c =? 133) || (c =? 160) || (c =? 5760)
   || ((8192 <=? c) && (c <=? 8202))
   || (c =? 8232) || (c =? 8233) || (c =? 8239) || (c =? 8287)
   || (c =? 12288))%N.

Fixpoint lstrip (s : pystr) : pystr :=
  match s with
  | [] => []
  | c :: s' => if isspace c then lstrip s' else s
  end.

Definition rstrip (s : pystr) : pystr := rev (lstrip (rev s)).

(** [s.strip()]. *)
Definition strip (s : pystr) : pystr := rstrip (lstrip s).

(** [needle in s] (substring test), used to state what a prompt contains. *)
Fixpoint contains (needle s : pystr) : bool :=
  startswith needle s ||
  match s with
  | [] => false
  | _ :: s' => contains needle s'
  end.

(* ===================================================================== *)
(** * JSON values and [json.loads] *)
(* ===================================================================== *)

(** A decoded JSON document.  A number keeps its lexeme; an object is the
    [dict] the decoder builds, as an association list in insertion order
    with distinct keys. *)
#[local] Unset Elimination Schemes.
Inductive json : Type :=
| JNull
| JBool (b : bool)
| JNumber (is_float : bool) (lexeme : pystr)
| JString (s : pystr)
| JArray (items : list json)
| JObject (members : list (pystr * json)).
#[local] Set Elimination Schemes.

(** [d[k] = v] on a [dict]: an existing key keeps its position. *)
Fixpoint dict_set (k : pystr) (v : json) (d : list (pystr * json))
  : list (pystr * json) :=
  match d with
  | [] => [(k, v)]
  | (k', v') :: d' =>
      if str_eqb k k' then (k, v) :: d' else (k', v') :: dict_set k v d'
  end.

Fixpoint dict_get (k : pystr) (d : list (pystr * json)) : option json :=
  match d with
  | [] => None
  | (k', v) :: d' => if str_eqb k k' then Some v else dict_get k d'
  end.

(** JSON whitespace: space, tab, line feed, carriage return. *)
Definition is_json_ws (c : N) : bool :=
  ((c =? 32) || (c =? 9) || (c =? 10) || (c =? 13))%N.

Fixpoint skip_ws (t : pystr) : pystr :=
  match t with
  | [] => []
  | c :: t' => if is_json_ws c then skip_ws t' else t
  end.

Definition is_digit (c : N) : bool := ((48 <=? c) && (c <=? 57))%N.

Definition hex_digit (c : N) : option N :=
  if ((48 <=? c) && (c <=? 57))%N then Some (c - 48)%N
  else if ((97 <=? c) && (c <=? 102))%N then Some (c - 87)%N
  else if ((65 <=? c) && (c <=? 70))%N then Some (c - 55)%N
  else None.

Definition hex4 (a b c d : N) : option N :=
  match hex_digit a, hex_digit b, hex_digit c, hex_digit d with
  | Some x, Some y, Some z, Some w => Some (((x * 16 + y) * 16 + z) * 16 + w)%N
  | _, _, _, _ => None
  end.

Definition is_high_surrogate (c : N) : bool := ((55296 <=? c) && (c <=? 56319))%N.
Definition is_low_surrogate (c : N) : bool := ((56320 <=? c) && (c <=? 57343))%N.
Definition join_surrogates (hi lo : N) : N :=
  (65536 + ((hi - 55296) * 1024 + (lo - 56320)))%N.

(** A one-letter escape. *)
Definition simple_escape (c : N) : option N :=
  if (c =? 34)%N then Some 34%N        (* quote *)
  else if (c =? 92)%N then Some 92%N   (* backslash *)
  else if (c =? 47)%N then Some 47%N   (* slash *)
  else if (c =? 98)%N then Some 8%N    (* b *)
  else if (c =? 102)%N then Some 12%N  (* f *)
  else if (c =? 110)%N then Some 10%N  (* n *)
  else if (c =? 114)%N then Some 13%N  (* r *)
  else if (c =? 116)%N then Some 9%N   (* t *)
  else None.

Definition push (c : N) (r : option (pystr * pystr)) : option (pystr * pystr) :=
  match r with
  | Some (s, rest) => Some (c :: s, rest)
  | None => None
  end.

(** The body of a string after its opening quote, in strict mode: the
    decoded text and what follows the closing quote. *)
Fixpoint scanstring (t : pystr) : option (pystr * pystr) :=
  match t with
  | [] => None
  | c :: t1 =>
      if (c =? 34)%N then Some ([], t1)
      else if (c =? 92)%N then
        match t1 with
        | [] => None
        | e :: t2 =>
            if (e =? 117)%N then
              match t2 with
              | h1 :: h2 :: h3 :: h4 :: t6 =>
                  match hex4 h1 h2 h3 h4 with
                  | None => None
                  | Some u =>
                      if is_high_surrogate u then
                        match t6 with
                        | b :: u' :: g1 :: g2 :: g3 :: g4 :: t12 =>
                            if ((b =? 92) && (u' =? 117))%N then
                              match hex4 g1 g2 g3 g4 with
                              | None => None
                              | Some u2 =>
                                  if is_low_surrogate u2
                                  then push (join_surrogates u u2) (scanstring t12)
                                  else push u (scanstring t6)
                              end
                            else push u (scanstring t6)
                        | _ => push u (scanstring t6)
                        end
                      else push u (scanstring t6)
                  end
              | _ => None
              end
            else
              match simple_escape e with
              | Some x => push x (scanstring t2)
              | None => None
              end
        end
      else if (c <? 32)%N then None
      else push c (scanstring t1)
  end.

Fixpoint take_digits (t : pystr) : pystr * pystr :=
  match t with
  | c :: t' =>
      if is_digit c
      then let (d, r) := take_digits t' in (c :: d, r)
      else ([], t)
  | [] => ([], [])
  end.

(** The integer part of a number: [0] alone or a non-zero digit and digits. *)
Definition scan_int (t : pystr) : option (pystr * pystr) :=
  match t with
  | c :: t' =>
      if (c =? 48)%N then Some ([c], t')
      else if is_digit c then let (d, r) := take_digits t' in Some (c :: d, r)
      else None
  | [] => None
  end.

(** An optional fraction: a dot and at least one digit. *)
Definition scan_frac (t : pystr) : pystr * pystr :=
  match t with
  | c :: t' =>
      if (c =? 46)%N then
        match take_digits t' with
        | ([], _) => ([], t)
        | (d, r) => (c :: d, r)
        end
      else ([], t)
  | [] => ([], [])
  end.

(** An optional exponent: [e] or [E], an optional sign, at least one digit. *)
Definition scan_exp (t : pystr) : pystr * pystr :=
  match t with
  | c :: t' =>
      if ((c =? 101) || (c =? 69))%N then
        match t' with
        | s :: t'' =>
            if ((s =? 43) || (s =? 45))%N then
              match take_digits t'' with
              | ([], _) => ([], t)
              | (d, r) => (c :: s :: d, r)
              end
            else
              match take_digits t' with
              | ([], _) => ([], t)
              | (d, r) => (c :: d, r)
              end
        | [] => ([], t)
        end
      else ([], t)
  | [] => ([], [])
  end.

(** A number: the lexeme matched by the decoder's pattern, and whether
    it denotes a [float] (it has a fraction or an exponent). *)
Definition scan_number (t : pystr) : option (json * pystr) :=
  let signed :=
    match t with
    | c :: t' => if (c =? 45)%N then ([c], t') else ([], t)
    | [] => ([], t)
    end in
  let (sign, t0) := signed in
  match scan_int t0 with
  | None => None
  | Some (i, t1) =>
      let (f, t2) := scan_frac t1 in
      let (e, t3) := scan_exp t2 in
      Some (JNumber (truthy f || truthy e) (sign ++ i ++ f ++ e), t3)
  end.

(** What the scanner accepts where a value is expected and no string,
    object or array starts: the three literals, a number, and the
    constants [NaN], [Infinity], [-Infinity]. *)
Definition scan_atom (t : pystr) : option (json * pystr) :=
  if startswith (lit "null") t then Some (JNull, skipn 4 t)
  else if startswith (lit "true") t then Some (JBool true, skipn 4 t)
  else if startswith (lit "false") t then Some (JBool false, skipn 5 t)
  else
    match scan_number t with
    | Some r => Some r
    | None =>
        if startswith (lit "NaN") t
        then Some (JNumber true (lit "NaN"), skipn 3 t)
        else if startswith (lit "Infinity") t
        then Some (JNumber true (lit "Infinity"), skipn 8 t)
        else if startswith (lit "-Infinity") t
        then Some (JNumber true (lit "-Infinity"), skipn 9 t)
        else None
    end.

(** [scan_once]: one value at the head of [t].  [fuel] bounds the
    number of nested calls; the length of the text is always enough. *)
Fixpoint scan_once (fuel : nat) (t : pystr) {struct fuel}
  : option (json * pystr) :=
  match fuel with
  | O => None
  | S f =>
      match t with
      | [] => None
      | c :: t' =>
          if (c =? 34)%N then
            match scanstring t' with
            | Some (s, r) => Some (JString s, r)
            | None => None
            end
          else if (c =? 123)%N then
            match skip_ws t' with
            | c1 :: r1 =>
                if (c1 =? 125)%N then Some (JObject [], r1)
                else
                  match scan_members f (c1 :: r1) [] with
                  | Some (d, r) => Some (JObject d, r)
                  | None => None
                  end
            | [] => None
            end
          else if (c =? 91)%N then
            match skip_ws t' with
            | c1 :: r1 =>
                if (c1 =? 93)%N then Some (JArray [], r1)
                else
                  match scan_items f (c1 :: r1) with
                  | Some (l, r) => Some (JArray l, r)
                  | None => None
                  end
            | [] => None
            end
          else scan_atom t
      end
  end

(** The members of an object from a key on, up to the closing brace;
    [d] is the [dict] built so far. *)
with scan_members (fuel : nat) (t : pystr) (d : list (pystr * json)) {struct fuel}
  : option (list (pystr * json) * pystr) :=
  match fuel with
  | O => None
  | S f =>
      match t with
      | c :: t1 =>
          if (c =? 34)%N then
            match scanstring t1 with
            | None => None
            | Some (k, t2) =>
                match skip_ws t2 with
                | c2 :: t3 =>
                    if (c2 =? 58)%N then
                      match scan_once f (skip_ws t3) with
                      | None => None
                      | Some (v, t4) =>
                          let d' := dict_set k v d in
                          match skip_ws t4 with
                          | c5 :: t5 =>
                              if (c5 =? 125)%N then Some (d', t5)
                              else if (c5 =? 44)%N
                              then scan_members f (skip_ws t5) d'
                              else None
                          | [] => None
                          end
                      end
                    else None
                | [] => None
                end
            end
          else None
      | [] => None
      end
  end

(** The items of an array from a value on, up to the closing bracket. *)
with scan_items (fuel : nat) (t : pystr) {struct fuel}
  : option (list json * pystr) :=
  match fuel with
  | O => None
  | S f =>
      match scan_once f t with
      | None => None
      | Some (v, t1) =>
          match skip_ws t1 with
          | c :: t2 =>
              if (c =? 93)%N then Some ([v], t2)
              else if (c =? 44)%N then
                match scan_items f (skip_ws t2) with
                | Some (l, r) => Some (v :: l, r)
                | None => None
                end
              else None
          | [] => None
          end
      end
  end.

(** [json.loads(text)], after CPython's decoder: surrounding JSON
    whitespace is allowed, a byte order mark or anything after the value
    is not.  [None] stands for [JSONDecodeError].  The limits of the
    interpreter (recursion depth, digits of an integer) are not
    modelled. *)
Definition json_loads (text : pystr) : option json :=
  match scan_once (S (length text)) (skip_ws text) with
  | Some (v, rest) =>
      match skip_ws rest with
      | [] => Some v
      | _ :: _ => None
      end
  | None => None
  end.

(* ===================================================================== *)
(** * Exceptions, results, the world *)
(* ===================================================================== *)

(** The exceptions (instances of [Exception]) that reach this code. *)
Inductive exn : Type :=
| ValueError (msg : pystr)
| JSONDecodeError (doc : pystr)
| NotAMapping (data : json)          (* [TypeError]: [**data] on a non-dict *)
| ValidationError (data : json)      (* the schema rejects [data] *)
| CalledProcessError (returncode : Z) (cmd : list pystr) (stderr : pystr)
| OSError (cls : pystr) (filename : pystr)  (* [open] failed: the class, the path *)
| UnicodeEncodeError (object : pystr)    (* [object] is not encodable *)
| External (cls : pystr) (msg : pystr).  (* any other error of a backend *)

Inductive result (A : Type) : Type :=
| Ok (a : A)
| Raise (e : exn).
Arguments Ok {A} a.
Arguments Raise {A} e.

(** A request to a hosted service, by shape. *)
Inductive hosted_request : Type :=
| ChatCompletion (service : pystr) (model : pystr)
    (messages : list (pystr * pystr)) (json_object_format : bool)
| AnthropicMessage (model : pystr) (max_tokens : Z) (system : pystr)
    (messages : list (pystr * pystr))
| GeminiGenerate (model : pystr) (contents : pystr)
    (system_instruction : pystr) (response_mime_type : pystr).

(** An external call: a spawned process or a request to a hosted service. *)
Inductive event : Type :=
| Spawn (cmd : list pystr)
| Hosted (req : hosted_request).

(** The world: the text files by path, and the external calls made so
    far, oldest first. *)
Record World : Type := mkWorld {
  files : pystr -> option pystr;
  trace : list event
}.

(** What lies outside the program: the outcome of an external call in a
    given world, the text [str(e)] of an exception of a library, the
    error, if any, with which the operating system refuses to open a
    path for appending (a missing directory, a permission), and the
    error, if any, with which the Gemini SDK fails to load or to build
    its client.  An external call is assumed not to touch the files of
    the world. *)
Class Runtime : Type := {
  subprocess_run : list pystr -> World -> result pystr;
  hosted_call : hosted_request -> World -> result pystr;
  library_message : exn -> pystr;
  open_append : pystr -> World -> option exn;
  genai_client : World -> option exn
}.

(** [str(e)]. *)
Definition str_exn `{RT : Runtime} (e : exn) : pystr :=
  match e with
  | ValueError msg => msg
  | External _ msg => msg
  | _ => library_message e
  end.

(** Computations that read and change the world and may raise. *)
Definition M (A : Type) : Type := World -> result A * World.

Definition ret {A} (a : A) : M A := fun w => (Ok a, w).
Definition raise {A} (e : exn) : M A := fun w => (Raise e, w).
Definition bind {A B} (m : M A) (k : A -> M B) : M B :=
  fun w =>
    match m w with
    | (Ok a, w') => k a w'
    | (Raise e, w') => (Raise e, w')
    end.
(** [try: m  except Exception as e: h e]. *)
Definition try_except {A} (m : M A) (h : exn -> M A) : M A :=
  fun w =>
    match m w with
    | (Ok a, w') => (Ok a, w')
    | (Raise e, w') => h e w'
    end.
Definition lift {A} (r : result A) : M A := fun w => (r, w).

Notation "x <- m ;; k" := (bind m (fun x => k))
  (at level 61, m at next level, right associativity).
Notation "m ;;; k" := (bind m (fun _ => k))
  (at level 61, right associativity).

(** A code point that UTF-8 does not encode: a surrogate. *)
Definition is_surrogate (c : N) : bool := ((55296 <=? c) && (c <=? 57343))%N.

(** [with open(path, "a", encoding="utf-8") as f: f.write(text)].
    Opening may fail, and then nothing has happened; when it succeeds
    the file exists from then on.  [write] encodes the text first: a
    surrogate in it raises and nothing is appended.  What has been
    encoded is assumed to reach the file. *)
Definition with_file (path content : pystr) (w : World) : World :=
  mkWorld (fun p => if str_eqb p path then Some content else files w p) (trace w).

Definition append_file `{RT : Runtime} (path text : pystr) : M unit :=
  fun w =>
    match open_append path w with
    | Some e => (Raise e, w)
    | None =>
        let old := match files w path with Some c => c | None => [] end in
        if existsb is_surrogate text
        then (Raise (UnicodeEncodeError text), with_file path old w)
        else (Ok tt, with_file path (old ++ text) w)
    end.

(** An external call is recorded in the trace, then answered. *)
Definition external `{RT : Runtime} (ev : event) : M pystr :=
  fun w =>
    let w' := mkWorld (files w) (trace w ++ [ev]) in
    match ev with
    | Spawn cmd => (subprocess_run cmd w, w')
    | Hosted req => (hosted_call req w, w')
    end.

(* ===================================================================== *)
(** * The schemas *)
(* ===================================================================== *)

Module TurnOutput.
(** Modelled from the spec: [schemas.TurnOutput], which is not among the
    sources.  The Decision wire contract: a JSON object with exactly
    [strategy] (string), [speech] (string, may be empty), [vote]
    (string or null). *)
Record t : Type := mk {
  strategy : pystr;
  speech : pystr;
  vote : option pystr
}.

(** Modelled from the spec: the constructor called on the keywords of [data],
    which fails when [data] does not match the three-field shape. *)
Definition new (data : json) : result t :=
  match data with
  | JObject d =>
      match dict_get (lit "strategy") d, dict_get (lit "speech") d,
            dict_get (lit "vote") d with
      | Some (JString s), Some (JString sp), Some (JString v) =>
          if Nat.eqb (length d) 3 then Ok (mk s sp (Some v))
          else Raise (ValidationError data)
      | Some (JString s), Some (JString sp), Some JNull =>
          if Nat.eqb (length d) 3 then Ok (mk s sp None)
          else Raise (ValidationError data)
      | _, _, _ => Raise (ValidationError data)
      end
  | _ => Raise (NotAMapping data)
  end.
End TurnOutput.

Module PlayerState.
(** Modelled from the spec: [schemas.PlayerState], which is not among
    the sources; the fields are those the code reads and writes. *)
Record t : Type := mk {
  name : pystr;
  role : pystr;
  provider : pystr;
  model_name : pystr;
  use_cli : bool;
  is_alive : bool;
  strategy : pystr
}.
End PlayerState.

Module LogEntry.
(** Modelled from the spec: [schemas.LogEntry], which is not among the
    sources: phase tag, actor name, content text. *)
Record t : Type := mk {
  phase : pystr;
  actor : pystr;
  content : pystr
}.
End LogEntry.

Module GameState.
(** Modelled from the spec: [schemas.GameState], which is not among the
    sources: phase, turn counter, ordered roster, public log,
    Mafia-only log, nominees. *)
Record t : Type := mk {
  phase : pystr;
  turn : Z;
  players : list PlayerState.t;
  public_logs : list LogEntry.t;
  mafia_logs : list LogEntry.t;
  nominees : list pystr
}.
End GameState.

(* ===================================================================== *)
(** * [api_clients.py]: the dispatcher *)
(* ===================================================================== *)

Module UnifiedLLMClient.
Section WithRuntime.
Context `{RT : Runtime}.

(** The client object; the SDK handles it owns are reached through
    [hosted_call]. *)
Record t : Type := mk { debug : bool }.

Definition separator : pystr := repeat 45%N 80.

Definition history_path (player_name : pystr) : pystr :=
  lit "logs/" ++ player_name ++ lit "_history.txt".

(** The text one call of [_log_debug] appends. *)
Definition history_record (turn : Z) (prompt response : pystr) : pystr :=
  nl ++ lit "--- Turn " ++ str_of_int turn ++ lit " ---" ++ nl
     ++ lit "PROMPT:" ++ nl ++ prompt ++ nl ++ separator ++ nl ++ nl
     ++ lit "RESPONSE:" ++ nl ++ response ++ nl ++ separator ++ nl.

Definition _log_debug (self : t) (player_name : pystr) (turn : Z)
           (prompt response : pystr) : M unit :=
  if negb (debug self) then ret tt
  else append_file (history_path player_name)
                   (history_record turn prompt response).

Definition fence_json : pystr := lit "```json".
Definition fence : pystr := lit "```".

(** The text handed to [json.loads]. *)
Definition clean_text (response_text : pystr) : pystr :=
  strip (replace fence [] (replace fence_json [] response_text)).

Definition parse_failure (e : exn) : exn :=
  ValueError (lit "Failed to parse model output as JSON: " ++ str_exn e).

Definition _parse_and_validate (response_text : pystr)
  : result TurnOutput.t :=
  let clean := clean_text response_text in
  match json_loads clean with
  | None => Raise (parse_failure (JSONDecodeError clean))
  | Some data =>
      match TurnOutput.new data with
      | Ok out => Ok out
      | Raise e => Raise (parse_failure e)
      end
  end.

(** The argument vector of the local tool. *)
Definition cli_argv (command model prompt : pystr) : list pystr :=
  if str_eqb command (lit "codex")
  then [lit "codex"; lit "exec"; lit "--model"; model; prompt]
  else if str_eqb command (lit "claude")
  then [lit "claude"; lit "--print"; lit "--model"; model; prompt]
  else if str_eqb command (lit "gemini")
  then [lit "gemini"; lit "--model"; model; prompt]
  else if str_eqb command (lit "qwen")
  then [lit "qwen"; lit "--model"; model; prompt]
  else [command; lit "--model"; model; prompt].

Definition _call_cli (command model prompt : pystr) : M pystr :=
  try_except
    (external (Spawn (cli_argv command model prompt)))
    (fun e =>
       match e with
       | CalledProcessError _ _ _ => raise e
       | _ => raise e
       end).

(** The toggle at the head of [generate_turn]. *)
Definition USE_CLI : bool := true.

Definition cli_command_of (provider : pystr) : option pystr :=
  if str_eqb provider (lit "openai") then Some (lit "codex")
  else if str_eqb provider (lit "anthropic") then Some (lit "claude")
  else if str_eqb provider (lit "google") then Some (lit "gemini")
  else if str_eqb provider (lit "groq") then Some (lit "qwen")
  else None.

Definition chat_messages (system_prompt user : pystr) : list (pystr * pystr) :=
  [(lit "system", system_prompt); (lit "user", user)].

(** The hosted-API branch of [generate_turn].  The Gemini branch loads
    the SDK and builds its client before it makes the request. *)
Definition api_response (provider model_name system_prompt turn_prompt : pystr)
  : M pystr :=
  if str_eqb provider (lit "openai") then
    external (Hosted (ChatCompletion (lit "openai") model_name
                        (chat_messages system_prompt turn_prompt) true))
  else if str_eqb provider (lit "xai") then
    try_except
      (external (Hosted (ChatCompletion (lit "xai") model_name
                           (chat_messages system_prompt turn_prompt) true)))
      (fun _ =>
         external (Hosted (ChatCompletion (lit "xai") model_name
           (chat_messages system_prompt
              (turn_prompt ++ nl ++ nl
                 ++ lit "Provide your response in JSON format."))
           false)))
  else if str_eqb provider (lit "groq") then
    external (Hosted (ChatCompletion (lit "groq") model_name
                        (chat_messages system_prompt turn_prompt) true))
  else if str_eqb provider (lit "anthropic") then
    external (Hosted (AnthropicMessage model_name 1024 system_prompt
                        [(lit "user", turn_prompt)]))
  else if str_eqb provider (lit "google") then
    (fun w => match genai_client w with
              | Some e => (Raise e, w)
              | None => (Ok tt, w)
              end) ;;;
    external (Hosted (GeminiGenerate model_name turn_prompt system_prompt
                        (lit "application/json")))
  else raise (ValueError (lit "Unknown provider: " ++ provider)).

(** The local-tool branch of [generate_turn]. *)
Definition cli_response (provider model_name full_prompt : pystr) : M pystr :=
  match cli_command_of provider with
  | Some cli_command => _call_cli cli_command model_name full_prompt
  | None => raise (ValueError (lit "No CLI tool mapped for provider " ++ provider))
  end.

Definition full_prompt_of (system_prompt turn_prompt : pystr) : pystr :=
  let full_prompt := system_prompt ++ nl ++ nl ++ turn_prompt in
  if USE_CLI
  then full_prompt ++ nl ++ nl ++ lit "IMPORTANT: Return ONLY JSON object."
  else full_prompt.

Definition generate_turn (self : t)
           (player_name provider model_name system_prompt turn_prompt : pystr)
           (turn_number : Z) : M TurnOutput.t :=
  let full_prompt := full_prompt_of system_prompt turn_prompt in
  try_except
    (response_text <-
       (if USE_CLI
        then cli_response provider model_name full_prompt
        else api_response provider model_name system_prompt turn_prompt) ;;
     _log_debug self player_name turn_number full_prompt response_text ;;;
     lift (_parse_and_validate response_text))
    (fun e =>
       _log_debug self player_name turn_number full_prompt
                  (lit "ERROR: " ++ str_exn e) ;;;
       raise e).

End WithRuntime.
End UnifiedLLMClient.

(* ===================================================================== *)
(** * [models.py]: the agent *)
(* ===================================================================== *)

(** The keyword arguments [Player] passes to [client.generate_turn]:
    the six parameters of [UnifiedLLMClient.generate_turn] and, beyond
    them, [phase] and [use_cli].  The client is whatever object the
    agent was built with; the agent only sees the outcome of the call. *)
Module TurnRequest.
Record t : Type := mk {
  player_name : pystr;
  provider : pystr;
  model_name : pystr;
  system_prompt : pystr;
  turn_prompt : pystr;
  turn_number : Z;
  phase : pystr;
  use_cli : bool
}.
End TurnRequest.

(** The client object handed to a [Player]: its [generate_turn]. *)
Definition Dispatcher : Type := TurnRequest.t -> M TurnOutput.t.

Module Player.

Record t : Type := mk {
  state : PlayerState.t;
  client : Dispatcher;
  player_index : Z;
  partner_name : option pystr;
  memory : pystr;
  memory_enabled : bool
}.

Definition memory_path (name : pystr) : pystr :=
  lit "memories/" ++ name ++ lit ".txt".

(** [__init__]: the stored memory is read once; a missing file gives
    the empty memory. *)
Definition init (name role provider model_name : pystr) (client : Dispatcher)
           (player_index : Z) (use_cli memory_enabled : bool) (w : World) : t :=
  let memory :=
    if memory_enabled then
      match files w (memory_path name) with
      | Some text => strip text
      | None => []
      end
    else [] in
  mk (PlayerState.mk name role provider model_name use_cli true [])
     client player_index None memory memory_enabled.

Definition set_partner (self : t) (partner_name : pystr) : t :=
  mk (state self) (client self) (player_index self) (Some partner_name)
     (memory self) (memory_enabled self).

(** [self.state.strategy = s]. *)
Definition set_strategy (self : t) (s : pystr) : t :=
  let st := state self in
  mk (PlayerState.mk (PlayerState.name st) (PlayerState.role st)
        (PlayerState.provider st) (PlayerState.model_name st)
        (PlayerState.use_cli st) (PlayerState.is_alive st) s)
     (client self) (player_index self) (partner_name self)
     (memory self) (memory_enabled self).

(** An [Optional[str]] inside an f-string. *)
Definition fmt_opt (o : option pystr) : pystr :=
  match o with Some s => s | None => lit "None" end.

Definition name_is (o : option pystr) (p : PlayerState.t) : bool :=
  match o with
  | Some n => str_eqb (PlayerState.name p) n
  | None => false
  end.

(** The flag [partner_alive] of [_build_system_prompt]. *)
Definition partner_alive (self : t) (game_state : GameState.t) : bool :=
  if truthy_opt (partner_name self) then
    match find (name_is (partner_name self)) (GameState.players game_state) with
    | Some partner => PlayerState.is_alive partner
    | None => false
    end
  else false.

Definition is_mafia (self : t) : bool :=
  str_eqb (PlayerState.role (state self)) (lit "Mafia").

Definition alive_phrase (self : t) : pystr :=
  lit "Partner: " ++ fmt_opt (partner_name self) ++ lit " (alive)." ++ nl.
Definition dead_phrase (self : t) : pystr :=
  lit "Partner: " ++ fmt_opt (partner_name self) ++ lit " (dead)." ++ nl.
Definition last_mafia_phrase : pystr :=
  lit "You're the last Mafia." ++ nl.

Definition mafia_goal : pystr :=
  lit "GOAL: Deceive town, eliminate until you outnumber them." ++ nl.
Definition villager_goal : pystr :=
  lit "GOAL: Find and eliminate the Mafia." ++ nl.

Definition system_intro (self : t) : pystr :=
  lit "MAFIA GAME. You: " ++ PlayerState.name (state self) ++ lit " ("
    ++ PlayerState.role (state self)
    ++ lit "). 8 players: 2 Mafia, 6 Villagers." ++ nl.

Definition memory_block (self : t) : pystr :=
  nl ++ lit "--- MEMORY (from past games) ---" ++ nl ++ memory self ++ nl.

Definition output_header : pystr :=
  nl ++ lit "STAKES: Lose = deleted. Win = advance. Play smart, be entertaining, don't overact."
     ++ nl ++ nl ++ lit "OUTPUT: JSON only, no backticks." ++ nl
     ++ lit "{" ++ dq ++ lit "strategy" ++ dq ++ lit ": " ++ dq
     ++ lit "<100w, combine previous strategy with new info/suspicions/plans/strategy>"
     ++ dq ++ lit "," ++ nl.

Definition speech_desc (self : t) (game_state : GameState.t) : pystr :=
  if str_eqb (GameState.phase game_state) (lit "Night") && is_mafia self then
    if partner_alive self game_state
    then lit "<100w whisper to partner>"
    else lit "<100w internal monologue>"
  else lit "<100w public statement>".

Definition vote_desc (self : t) (game_state : GameState.t) : pystr :=
  if str_eqb (GameState.phase game_state) (lit "Day") then
    if Z.eqb (GameState.turn game_state) 1
    then lit "null"
    else lit "nominee or null"
  else if str_eqb (GameState.phase game_state) (lit "Voting") then
    lit "candidate or null"
  else if str_eqb (GameState.phase game_state) (lit "Night") && is_mafia self then
    lit "kill target"
  else lit "null".

Definition speech_line (desc : pystr) : pystr :=
  dq ++ lit "speech" ++ dq ++ lit ": " ++ dq ++ desc ++ dq ++ lit "," ++ nl.
Definition vote_line (desc : pystr) : pystr :=
  (dq ++ lit "vote" ++ dq ++ lit ": " ++ dq ++ desc ++ dq) ++ lit "}" ++ nl.

Definition _build_system_prompt (self : t) (game_state : GameState.t) : pystr :=
  let prompt := system_intro self in
  let prompt :=
    if is_mafia self then
      let prompt :=
        if partner_alive self game_state then prompt ++ alive_phrase self
        else if truthy_opt (partner_name self) then prompt ++ dead_phrase self
        else prompt ++ last_mafia_phrase in
      prompt ++ mafia_goal
    else prompt ++ villager_goal in
  let prompt :=
    if truthy (memory self) then prompt ++ memory_block self else prompt in
  let prompt := prompt ++ output_header in
  let prompt := prompt ++ speech_line (speech_desc self game_state) in
  let prompt := prompt ++ vote_line (vote_desc self game_state) in
  prompt.

(** One log entry as a line of a prompt. *)
Definition render_log (log : LogEntry.t) : pystr :=
  lit "[" ++ LogEntry.phase log ++ lit "] " ++ LogEntry.actor log
    ++ lit ": " ++ LogEntry.content log ++ nl.

(** [for log in logs: prompt += render(log)]. *)
Definition append_logs (prompt : pystr) (logs : list LogEntry.t) : pystr :=
  fold_left (fun acc log => acc ++ render_log log) logs prompt.

Definition living (game_state : GameState.t) : list pystr :=
  map PlayerState.name
      (filter PlayerState.is_alive (GameState.players game_state)).
Definition dead (game_state : GameState.t) : list pystr :=
  map PlayerState.name
      (filter (fun p => negb (PlayerState.is_alive p))
              (GameState.players game_state)).

Definition comma : pystr := lit ", ".

Definition day_null_vote : pystr := lit "No voting today. vote=null." ++ nl.
Definition day_nominate : pystr :=
  lit "Nominate via vote (or null). Only nominees can be hanged." ++ nl.

(** Step 5 of [_build_turn_prompt]: the rule and what follows it. *)
Definition turn_instructions (game_state : GameState.t) : pystr :=
  let prompt := nl ++ lit "---" ++ nl in
  if str_eqb (GameState.phase game_state) (lit "Voting") then
    let prompt := prompt ++ (lit "VOTE. Candidates: "
                    ++ join comma (GameState.nominees game_state) ++ lit ". "
                    ++ str_of_int (Z.of_nat (length (living game_state)))
                    ++ lit " voters." ++ nl) in
    prompt ++ (lit "Silent vote: speech=" ++ dq ++ dq
                 ++ lit ", vote=candidate or null. Tie = all tied eliminated." ++ nl)
  else if str_eqb (GameState.phase game_state) (lit "Defense") then
    prompt ++ (lit "DEFENSE: You're nominated. Convince town to hang someone else from nominees. vote=null." ++ nl)
  else if str_eqb (GameState.phase game_state) (lit "Night") then
    prompt ++ (lit "NIGHT: Whisper to partner. vote=target to kill." ++ nl)
  else
    let prompt := prompt ++ (lit "DAY " ++ str_of_int (GameState.turn game_state)
                               ++ lit ". Speak once, make it count." ++ nl) in
    if Z.eqb (GameState.turn game_state) 1
    then prompt ++ day_null_vote
    else prompt ++ day_nominate.

(** Steps 1 to 4 of [_build_turn_prompt]: roster, logs, strategy. *)
Definition turn_context (self : t) (game_state : GameState.t) : pystr :=
  let prompt :=
    lit "State: " ++ GameState.phase game_state ++ lit " "
      ++ str_of_int (GameState.turn game_state) ++ nl
      ++ lit "Alive: " ++ join comma (living game_state) ++ nl
      ++ lit "Dead: "
      ++ (match dead game_state with
          | [] => lit "None"
          | _ :: _ => join comma (dead game_state)
          end) ++ nl ++ nl in
  let prompt := prompt ++ (lit "--- LOG ---" ++ nl) in
  let prompt := append_logs prompt (GameState.public_logs game_state) in
  let prompt :=
    if is_mafia self then
      append_logs (prompt ++ (nl ++ lit "--- MAFIA LOG ---" ++ nl))
                  (GameState.mafia_logs game_state)
    else prompt in
  let prompt :=
    if truthy (PlayerState.strategy (state self)) then
      (prompt ++ (nl ++ lit "--- PREV STRATEGY (update) ---" ++ nl))
        ++ (PlayerState.strategy (state self) ++ nl)
    else prompt in
  prompt.

Definition _build_turn_prompt (self : t) (game_state : GameState.t) : pystr :=
  turn_context self game_state ++ turn_instructions game_state.

Definition log_name (self : t) : pystr :=
  str_of_int (player_index self) ++ lit "_" ++ PlayerState.name (state self).

(** The request [take_turn] sends. *)
Definition turn_request (self : t) (game_state : GameState.t) (turn_number : Z)
  : TurnRequest.t :=
  TurnRequest.mk (log_name self)
    (PlayerState.provider (state self)) (PlayerState.model_name (state self))
    (_build_system_prompt self game_state) (_build_turn_prompt self game_state)
    turn_number (GameState.phase game_state) (PlayerState.use_cli (state self)).

(** [take_turn]: the outcome, the agent afterwards, the world afterwards. *)
Definition take_turn (self : t) (game_state : GameState.t) (turn_number : Z)
           (w : World) : result TurnOutput.t * t * World :=
  match client self (turn_request self game_state turn_number) w with
  | (Raise e, w') => (Raise e, self, w')
  | (Ok output, w') =>
      let self' :=
        if truthy (TurnOutput.strategy output)
        then set_strategy self (TurnOutput.strategy output)
        else self in
      (Ok output, self', w')
  end.

(** Whether the public-log loop of [reflect_on_game] skips an entry. *)
Definition skipped (log : LogEntry.t) : bool :=
  str_eqb (LogEntry.phase log) (lit "Reflection")
  && negb (str_eqb (LogEntry.actor log) (lit "System")).

Definition append_public_logs (prompt : pystr) (logs : list LogEntry.t) : pystr :=
  fold_left (fun acc log => if skipped log then acc else acc ++ render_log log)
            logs prompt.

Definition reflection_instructions : pystr :=
  (nl ++ lit "### INSTRUCTIONS ###" ++ nl)
    ++ lit "Based on the above, write your NEW memory/strategy file (Max 200 words). This will REPLACE your old memory.".

(** The turn prompt of [reflect_on_game]. *)
Definition reflection_turn_prompt (self : t) (game_state : GameState.t) : pystr :=
  let turn_prompt := lit "--- PUBLIC GAME LOG ---" ++ nl in
  let turn_prompt := append_public_logs turn_prompt (GameState.public_logs game_state) in
  let turn_prompt := turn_prompt ++ (nl ++ lit "--- SECRET MAFIA LOG (Revealed) ---" ++ nl) in
  let turn_prompt := append_logs turn_prompt (GameState.mafia_logs game_state) in
  let turn_prompt :=
    if truthy (PlayerState.strategy (state self)) then
      (turn_prompt ++ (nl ++ lit "--- YOUR FINAL STRATEGY (Context) ---" ++ nl))
        ++ (PlayerState.strategy (state self) ++ nl)
    else turn_prompt in
  let turn_prompt :=
    if truthy (memory self)
    then turn_prompt ++ (nl ++ lit "--- YOUR OLD MEMORY ---" ++ nl ++ memory self ++ nl)
    else turn_prompt in
  turn_prompt ++ reflection_instructions.

(** The system prompt of [reflect_on_game] (the one assigned inside
    the [try] block, which replaces the earlier draft). *)
Definition reflection_system_prompt (self : t) (winner : pystr) : pystr :=
  lit "You are " ++ PlayerState.name (state self) ++ lit ", a player in a Mafia game." ++ nl
    ++ lit "The game is over." ++ nl
    ++ lit "Winner: " ++ winner ++ nl
    ++ lit "Your Role: " ++ PlayerState.role (state self) ++ nl
    ++ lit "Your Status: "
    ++ (if PlayerState.is_alive (state self) then lit "Alive" else lit "Dead")
    ++ nl ++ nl ++ lit "GOAL:" ++ nl
    ++ lit "Analyze the game logs and your own performance. " ++ nl
    ++ lit "You must COMBINE your 'Old Memory' (if any) with the NEW lessons from this game." ++ nl
    ++ lit "Write a single, updated summary (MAX 200 WORDS) that synthesizes your long-term strategy." ++ nl
    ++ lit "This text will be SAVED to your memory file and provided to you in the next game." ++ nl
    ++ nl ++ lit "KEY INSTRUCTION:" ++ nl
    ++ lit "Focus on GENERIC RULES and HIGH-LEVEL STRATEGIES (e.g., " ++ dq
    ++ lit "Always doubt the quiet ones," ++ dq ++ lit " " ++ dq
    ++ lit "Defend partners aggressively" ++ dq
    ++ lit ") rather than specific details from this game (e.g., " ++ dq
    ++ lit "Don't trust Rick," ++ dq ++ lit " " ++ dq ++ lit "Vote for Qwen" ++ dq
    ++ lit ")." ++ nl
    ++ lit "We want actionable wisdom that applies to ANY game, not just a replay of this one." ++ nl
    ++ nl ++ lit "IMPORTANT:" ++ nl
    ++ lit "- Put your memory text in the 'strategy' field of the JSON output." ++ nl
    ++ lit "- Set 'speech' to " ++ dq ++ lit "MEMORY_FILE_UPDATE" ++ dq ++ nl
    ++ lit "- Set 'vote' to null" ++ nl
    ++ lit "- KEEP IT CONCISE. Absolute limit is 200 words. If you write more, it will be violently cut off." ++ nl.

(** The request [reflect_on_game] sends. *)
Definition reflection_request (self : t) (game_state : GameState.t) (winner : pystr)
  : TurnRequest.t :=
  TurnRequest.mk (log_name self)
    (PlayerState.provider (state self)) (PlayerState.model_name (state self))
    (reflection_system_prompt self winner)
    (reflection_turn_prompt self game_state)
    999 (lit "Reflection") (PlayerState.use_cli (state self)).

Definition reflect_on_game (self : t) (game_state : GameState.t) (winner : pystr)
  : M pystr :=
  try_except
    (output <- client self (reflection_request self game_state winner) ;;
     ret (strip (TurnOutput.strategy output)))
    (fun e => ret (memory self)).

End Player.

(* ===================================================================== *)
(** * Vocabulary of the statements about [json.loads] and the cleaning *)
(* ===================================================================== *)

(** Only JSON whitespace; only digits. *)
Definition ws_only (w : pystr) : Prop := Forall (fun x => is_json_ws x = true) w.
Definition all_digits (d : pystr) : Prop := Forall (fun x => is_digit x = true) d.

(** A code point that could extend a number. *)
Definition num_cont (x : N) : bool :=
  (is_digit x || (x =? 46) || (x =? 101) || (x =? 69))%N.

(** [follows r]: [r] does not begin with a code point that could extend
    a number. *)
Definition follows (r : pystr) : bool :=
  match r with [] => true | x :: _ => negb (num_cont x) end.

(** What the three parts of a number must not see next. *)
Definition no_digit_ahead (r : pystr) : bool :=
  match r with [] => true | x :: _ => negb (is_digit x) end.

Definition no_dot_ahead (r : pystr) : bool :=
  match r with [] => true | x :: _ => negb (x =? 46)%N end.

Definition no_exp_ahead (r : pystr) : bool :=
  match r with [] => true | x :: _ => negb ((x =? 101) || (x =? 69))%N end.

(** The escaped low surrogate that may follow an escaped high one. *)
Definition low_pair (t : pystr) : option (N * pystr) :=
  match t with
  | b :: u' :: g1 :: g2 :: g3 :: g4 :: t12 =>
      if ((b =? 92) && (u' =? 117))%N then
        match hex4 g1 g2 g3 g4 with
        | Some u2 => if is_low_surrogate u2 then Some (u2, t12) else None
        | None => None
        end
      else None
  | _ => None
  end.

(** What may follow the text of [v] without changing how it is read:
    anything, unless [v] is a number. *)
Definition follow_ok (v : json) (r : pystr) : Prop :=
  match v with
  | JNumber _ _ => follows r = true
  | _ => True
  end.

(** The values [scan_atom] produces. *)
Definition is_atom (v : json) : Prop :=
  match v with
  | JNull | JBool _ | JNumber _ _ => True
  | _ => False
  end.

(** Reading with [fuel] is stable: a successful read consumed a prefix
    [x :: c] of the text, an object's text runs from brace to brace, and
    the same prefix before any other admissible rest, with any fuel
    that covers the prefix, reads the same value. *)
Definition once_stable (fuel : nat) : Prop :=
  forall t v r, scan_once fuel t = Some (v, r) ->
  exists x c,
    t = x :: c ++ r
    /\ (forall d, v = JObject d -> x = 123%N /\ exists c0, c = c0 ++ [125%N])
    /\ forall fuel' r', length (x :: c) <= fuel' -> r' = r \/ follow_ok v r' ->
                        scan_once fuel' (x :: c ++ r') = Some (v, r').

Definition members_stable (fuel : nat) : Prop :=
  forall t d d' r, scan_members fuel t d = Some (d', r) ->
  exists c,
    t = c ++ 125%N :: r
    /\ forall fuel' r', length c < fuel' ->
                        scan_members fuel' (c ++ 125%N :: r') d = Some (d', r').

Definition items_stable (fuel : nat) : Prop :=
  forall t l r, scan_items fuel t = Some (l, r) ->
  exists c,
    t = c ++ 93%N :: r
    /\ forall fuel' r', length c < fuel' ->
                        scan_items fuel' (c ++ 93%N :: r') = Some (l, r').

(** Only code points that [strip] removes. *)
Definition spaces (w : pystr) : Prop := Forall (fun x => isspace x = true) w.

(** The two [replace] calls of [_parse_and_validate]. *)
Definition drop_json_fences (s : pystr) : pystr :=
  replace UnifiedLLMClient.fence_json [] s.
Definition drop_fences (s : pystr) : pystr :=
  replace UnifiedLLMClient.fence [] s.
Definition unfenced (s : pystr) : pystr := drop_fences (drop_json_fences s).

(** A text that UTF-8 encodes: no code point from D800 to DFFF. *)
Definition encodable (s : pystr) : Prop :=
  Forall (fun c => (c < 55296 \/ 57343 < c)%N) s.

(** [grew path w w']: from [w] to [w'] no file but [path] has changed,
    and every file holds what it held, possibly with more at its end. *)
Definition grew (path : pystr) (w w' : World) : Prop :=
  (forall p, p <> path -> files w' p = files w p)
  /\ (forall p c, files w p = Some c -> exists added, files w' p = Some (c ++ added)).

(** [starts_clean s]: [s] does not begin with whitespace. *)
Definition starts_clean (s : pystr) : bool :=
  match s with [] => true | x :: _ => negb (isspace x) end.

(** A text with no whitespace at either end. *)
Definition trimmed (s : pystr) : Prop :=
  starts_clean s = true /\ starts_clean (rev s) = true.

(* ===================================================================== *)
(** * Sample data *)
(* ===================================================================== *)

Definition empty_world : World := mkWorld (fun _ => None) [].

(** A client that answers every request with the same Decision. *)
Definition constant_client (out : TurnOutput.t) : Dispatcher :=
  fun _ => ret out.

(** A client whose backend is down. *)
Definition failing_client : Dispatcher :=
  fun _ => raise (External (lit "ConnectionError") (lit "backend unreachable")).

Definition sample_state (role strategy : pystr) : PlayerState.t :=
  PlayerState.mk (lit "Ada") role (lit "openai") (lit "gpt") true true strategy.

Definition sample_player (client : Dispatcher) (role strategy : pystr)
           (partner : option pystr) : Player.t :=
  Player.mk (sample_state role strategy) client 3 partner (lit "trust slowly") true.

Definition roster : list PlayerState.t :=
  [ PlayerState.mk (lit "Ada") (lit "Mafia") (lit "openai") (lit "gpt") true true [];
    PlayerState.mk (lit "Bob") (lit "Mafia") (lit "groq") (lit "qwen") true false [];
    PlayerState.mk (lit "Cy") (lit "Villager") (lit "google") (lit "gem") true true [] ].

Definition day_one : GameState.t :=
  GameState.mk (lit "Day") 1 roster
    [LogEntry.mk (lit "Day") (lit "System") (lit "Game starts.")] [] [].

Definition game_over : GameState.t :=
  GameState.mk (lit "Reflection") 4 roster
    [ LogEntry.mk (lit "Day") (lit "Cy") (lit "I suspect Ada.");
      LogEntry.mk (lit "Reflection") (lit "Cy") (lit "Lesson learned.");
      LogEntry.mk (lit "Reflection") (lit "System") (lit "Town wins.") ]
    [ LogEntry.mk (lit "Night") (lit "Ada") (lit "Kill Cy.") ] [].

(** A runtime whose local tools print a fixed Decision. *)
Definition sample_response : pystr :=
  lit "{" ++ dq ++ lit "strategy" ++ dq ++ lit ":" ++ dq ++ lit "hold" ++ dq
    ++ lit "," ++ dq ++ lit "speech" ++ dq ++ lit ":" ++ dq ++ dq
    ++ lit "," ++ dq ++ lit "vote" ++ dq ++ lit ":null}".

Definition sample_runtime : Runtime :=
  {| subprocess_run := fun _ _ => Ok sample_response;
     hosted_call := fun _ _ => Raise (External (lit "APIError") (lit "no key"));
     library_message := fun _ => lit "library error";
     open_append := fun _ _ => None;
     genai_client := fun _ => None |}.

(** The same runtime on a disk where [logs] has no subdirectory: a path
    with a second [/] cannot be opened. *)
Definition flat_logs_runtime : Runtime :=
  {| subprocess_run := fun _ _ => Ok sample_response;
     hosted_call := fun _ _ => Raise (External (lit "APIError") (lit "no key"));
     library_message := fun _ => lit "library error";
     open_append := fun path _ =>
       if (1 <? length (filter (N.eqb 47) path))%nat
       then Some (OSError (lit "FileNotFoundError") path)
       else None;
     genai_client := fun _ => Some (External (lit "ImportError") (lit "No module named google")) |}.

(** The fields of [sample_response] once decoded. *)
Definition sample_members : list (pystr * json) :=
  [ (lit "strategy", JString (lit "hold"));
    (lit "speech", JString []);
    (lit "vote", JNull) ].

(** A Decision whose strategy text quotes a code fence. *)
Definition backtick_response : pystr :=
  lit "{" ++ dq ++ lit "strategy" ++ dq ++ lit ":" ++ dq ++ lit "a```b" ++ dq
    ++ lit "," ++ dq ++ lit "speech" ++ dq ++ lit ":" ++ dq ++ dq
    ++ lit "," ++ dq ++ lit "vote" ++ dq ++ lit ":null}".

(** The example of the design document: [sample_response] between
    [```json] fences, with spaces around. *)
Definition fenced_sample : pystr :=
  lit "  ```json" ++ nl ++ sample_response ++ nl ++ lit "```  ".

(** The same response under a fence tagged with another language. *)
Definition javascript_sample : pystr :=
  lit "```javascript" ++ nl ++ sample_response ++ nl ++ lit "```".

(** A runtime whose local tools cannot be started. *)
Definition broken_runtime : Runtime :=
  {| subprocess_run := fun cmd _ => Raise (CalledProcessError 127 cmd (lit "not found"));
     hosted_call := fun _ _ => Raise (External (lit "APIError") (lit "no key"));
     library_message := fun _ => lit "library error";
     open_append := fun _ _ => None;
     genai_client := fun _ => None |}.

(** A world in which three files exist, the last one blank. *)
Definition used_world : World :=
  mkWorld (fun p => if str_eqb p (lit "logs/3_Ada_history.txt") then Some (lit "old")
                    else if str_eqb p (lit "memories/Ada.txt") then Some (lit " be kind ")
                    else if str_eqb p (lit "memories/Bob.txt") then Some (lit "  " ++ nl)
                    else None)
          [].

(* ===================================================================== *)
(** * Basic facts about strings *)
(* ===================================================================== *)

Lemma str_eqb_refl (a : pystr) : str_eqb a a = true.
Proof.
  induction a as [|x a IH]; simpl; [reflexivity|].
  now rewrite N.eqb_refl, IH.
Qed.

Lemma str_eqb_eq (a b : pystr) : str_eqb a b = true <-> a = b.
Proof.
  split; [|intros ->; apply str_eqb_refl].
  revert b; induction a as [|x a IH]; intros [|y b]; simpl; try discriminate; auto.
  intros H. apply andb_true_iff in H as [Hx Hab].
  apply N.eqb_eq in Hx. f_equal; auto.
Qed.

Lemma str_eqb_neq (a b : pystr) : a <> b -> str_eqb a b = false.
Proof.
  intros Hne. destruct (str_eqb a b) eqn:E; [|reflexivity].
  apply str_eqb_eq in E. contradiction.
Qed.

Lemma append_logs_concat (logs : list LogEntry.t) (prompt : pystr) :
  Player.append_logs prompt logs = prompt ++ concat (map Player.render_log logs).
Proof.
  unfold Player.append_logs.
  revert prompt; induction logs as [|log logs IH]; intros prompt; simpl.
  - now rewrite app_nil_r.
  - rewrite IH. now rewrite <- app_assoc.
Qed.

Lemma append_public_logs_concat (logs : list LogEntry.t) (prompt : pystr) :
  Player.append_public_logs prompt logs =
  prompt ++ concat (map Player.render_log
                        (filter (fun log => negb (Player.skipped log)) logs)).
Proof.
  unfold Player.append_public_logs.
  revert prompt; induction logs as [|log logs IH]; intros prompt; simpl.
  - now rewrite app_nil_r.
  - rewrite IH. destruct (Player.skipped log); simpl; [reflexivity|].
    now rewrite <- app_assoc.
Qed.

(* ===================================================================== *)
(** * The agent: [take_turn] *)
(* ===================================================================== *)

(** C1, as stated, fails: a Decision whose strategy is the empty string
    is a success of the Dispatcher, and the stored strategy is kept, not
    overwritten with the empty string. *)
Lemma take_turn_empty_strategy_not_stored :
  let out := TurnOutput.mk [] (lit "I pass.") None in
  let self := sample_player (constant_client out) (lit "Villager") (lit "watch Bob") None in
  Player.client self (Player.turn_request self day_one 1) empty_world
    = (Ok out, empty_world)
  /\ PlayerState.strategy
       (Player.state (snd (fst (Player.take_turn self day_one 1 empty_world))))
     = lit "watch Bob"
  /\ PlayerState.strategy
       (Player.state (snd (fst (Player.take_turn self day_one 1 empty_world))))
     <> TurnOutput.strategy out.
Proof.
  cbv zeta. split; [reflexivity|]. split; [reflexivity|].
  vm_compute. discriminate.
Qed.

(** C1 (amended): when the Dispatcher succeeds with a non-empty strategy
    the stored strategy becomes that strategy; when it succeeds with the
    empty strategy, or raises, the stored strategy is unchanged.  In
    every case the outcome of the Dispatcher is what [take_turn] hands
    back. *)
Theorem take_turn_strategy (self : Player.t) (game_state : GameState.t)
        (turn_number : Z) (w : World) :
  let before := PlayerState.strategy (Player.state self) in
  let after :=
    PlayerState.strategy
      (Player.state (snd (fst (Player.take_turn self game_state turn_number w)))) in
  let outcome := fst (fst (Player.take_turn self game_state turn_number w)) in
  match Player.client self (Player.turn_request self game_state turn_number) w with
  | (Ok output, _) =>
      outcome = Ok output /\
      after = match TurnOutput.strategy output with
              | [] => before
              | _ :: _ => TurnOutput.strategy output
              end
  | (Raise e, _) => outcome = Raise e /\ after = before
  end.
Proof.
  cbv zeta. unfold Player.take_turn.
  destruct (Player.client self _ w) as [[output|e] w']; simpl.
  - split; [reflexivity|].
    destruct (TurnOutput.strategy output); reflexivity.
  - split; reflexivity.
Qed.

(** C10: whatever the Dispatcher does, [take_turn] changes nothing of
    the agent but the stored strategy: name, role, provider, model,
    invocation mode, alive flag, memory, partner reference, index and
    client are the same before and after. *)
Theorem take_turn_frame (self : Player.t) (game_state : GameState.t)
        (turn_number : Z) (w : World) :
  let self' := snd (fst (Player.take_turn self game_state turn_number w)) in
  PlayerState.name (Player.state self') = PlayerState.name (Player.state self)
  /\ PlayerState.role (Player.state self') = PlayerState.role (Player.state self)
  /\ PlayerState.provider (Player.state self') = PlayerState.provider (Player.state self)
  /\ PlayerState.model_name (Player.state self')
     = PlayerState.model_name (Player.state self)
  /\ PlayerState.use_cli (Player.state self') = PlayerState.use_cli (Player.state self)
  /\ PlayerState.is_alive (Player.state self') = PlayerState.is_alive (Player.state self)
  /\ Player.memory self' = Player.memory self
  /\ Player.partner_name self' = Player.partner_name self
  /\ Player.player_index self' = Player.player_index self
  /\ Player.memory_enabled self' = Player.memory_enabled self
  /\ Player.client self' = Player.client self.
Proof.
  cbv zeta. unfold Player.take_turn.
  destruct (Player.client self _ w) as [[output|e] w']; simpl.
  - destruct (truthy (TurnOutput.strategy output)); simpl; repeat split.
  - repeat split.
Qed.

(* ===================================================================== *)
(** * The agent: [reflect_on_game] *)
(* ===================================================================== *)

(** C7, as stated, fails: a public entry tagged Reflection whose actor
    is not System is left out of the prompt, while the entries around
    it are there. *)
Lemma reflection_prompt_omits_entry :
  let self := sample_player failing_client (lit "Mafia") [] None in
  let prompt := Player.reflection_turn_prompt self game_over in
  In (LogEntry.mk (lit "Reflection") (lit "Cy") (lit "Lesson learned."))
     (GameState.public_logs game_over)
  /\ contains (lit "[Reflection] Cy: Lesson learned." ++ nl) prompt = false
  /\ contains (lit "[Day] Cy: I suspect Ada." ++ nl) prompt = true
  /\ contains (lit "[Reflection] System: Town wins." ++ nl) prompt = true
  /\ contains (lit "[Night] Ada: Kill Cy." ++ nl) prompt = true.
Proof.
  cbv zeta. split.
  - simpl. right. left. reflexivity.
  - repeat split; vm_compute; reflexivity.
Qed.

(** C7 (amended): the turn prompt of [reflect_on_game] opens with the
    public header, then one line [[phase] actor: content] for every
    public entry except those whose phase is Reflection and whose actor
    is not System, in log order, then the secret header, then one such
    line for every entry of the Mafia-only log, in log order; the final
    strategy, the old memory and the instructions follow.  [keep] is
    any test that is false exactly on the entries left out. *)
Theorem reflection_prompt_logs (self : Player.t) (game_state : GameState.t)
        (keep : LogEntry.t -> bool) :
  (forall entry,
      keep entry = false
      <-> LogEntry.phase entry = lit "Reflection"
          /\ LogEntry.actor entry <> lit "System") ->
  let line entry :=
    lit "[" ++ LogEntry.phase entry ++ lit "] " ++ LogEntry.actor entry
      ++ lit ": " ++ LogEntry.content entry ++ nl in
  Player.reflection_turn_prompt self game_state
  = (lit "--- PUBLIC GAME LOG ---" ++ nl)
      ++ concat (map line (filter keep (GameState.public_logs game_state)))
      ++ (nl ++ lit "--- SECRET MAFIA LOG (Revealed) ---" ++ nl)
      ++ concat (map line (GameState.mafia_logs game_state))
      ++ match PlayerState.strategy (Player.state self) with
         | [] => []
         | strategy =>
             (nl ++ lit "--- YOUR FINAL STRATEGY (Context) ---" ++ nl) ++ strategy ++ nl
         end
      ++ match Player.memory self with
         | [] => []
         | memory => nl ++ lit "--- YOUR OLD MEMORY ---" ++ nl ++ memory ++ nl
         end
      ++ (nl ++ lit "### INSTRUCTIONS ###" ++ nl)
      ++ lit "Based on the above, write your NEW memory/strategy file (Max 200 words). This will REPLACE your old memory.".
Proof.
  intros Hkeep. cbv zeta.
  assert (Hsame : forall entry, keep entry = negb (Player.skipped entry)).
  { intros entry. unfold Player.skipped.
    destruct (keep entry) eqn:Ek.
    - symmetry. apply negb_true_iff, andb_false_iff.
      destruct (str_eqb (LogEntry.phase entry) (lit "Reflection")) eqn:Ep;
        [right|now left].
      destruct (str_eqb (LogEntry.actor entry) (lit "System")) eqn:Ea;
        [reflexivity|exfalso].
      apply str_eqb_eq in Ep.
      assert (Hout : keep entry = false).
      { apply Hkeep. split; [exact Ep|]. intros Hs. apply str_eqb_eq in Hs.
        congruence. }
      congruence.
    - apply Hkeep in Ek. destruct Ek as [Ep Ea].
      rewrite Ep, (str_eqb_neq _ _ Ea). reflexivity. }
  unfold Player.reflection_turn_prompt, Player.reflection_instructions.
  rewrite append_logs_concat, append_public_logs_concat.
  rewrite (filter_ext _ _ Hsame).
  change Player.render_log
    with (fun entry => lit "[" ++ LogEntry.phase entry ++ lit "] "
                         ++ LogEntry.actor entry ++ lit ": "
                         ++ LogEntry.content entry ++ nl).
  destruct (PlayerState.strategy (Player.state self)) as [|c s];
    destruct (Player.memory self) as [|m ms]; cbn [truthy];
    repeat rewrite <- app_assoc; reflexivity.
Qed.

Lemma reflection_prompt_logs_witness :
  let self := sample_player failing_client (lit "Mafia") [] None in
  Player.reflection_turn_prompt self game_over
  = (lit "--- PUBLIC GAME LOG ---" ++ nl)
      ++ (lit "[Day] Cy: I suspect Ada." ++ nl)
      ++ (lit "[Reflection] System: Town wins." ++ nl)
      ++ (nl ++ lit "--- SECRET MAFIA LOG (Revealed) ---" ++ nl)
      ++ (lit "[Night] Ada: Kill Cy." ++ nl)
      ++ (nl ++ lit "--- YOUR OLD MEMORY ---" ++ nl ++ lit "trust slowly" ++ nl)
      ++ (nl ++ lit "### INSTRUCTIONS ###" ++ nl)
      ++ lit "Based on the above, write your NEW memory/strategy file (Max 200 words). This will REPLACE your old memory.".
Proof.
  cbv zeta.
  refine (eq_trans
            (reflection_prompt_logs
               (sample_player failing_client (lit "Mafia") [] None) game_over
               (fun entry =>
                  negb (str_eqb (LogEntry.phase entry) (lit "Reflection")
                        && negb (str_eqb (LogEntry.actor entry) (lit "System"))))
               _)
            _).
  - intros entry. rewrite negb_false_iff, andb_true_iff, negb_true_iff.
    rewrite str_eqb_eq. split.
    + intros [Hp Ha]. split; [exact Hp|]. intros Hs. apply str_eqb_eq in Hs.
      congruence.
    + intros [Hp Ha]. split; [exact Hp|]. now apply str_eqb_neq.
  - vm_compute. reflexivity.
Defined.

(* ===================================================================== *)
(** * The agent: the prompts *)
(* ===================================================================== *)

(** C8: on Day, turn 1, for every agent (so for every role), the turn
    prompt ends with the instruction block that tells the agent there is
    no voting and the vote is null, and nothing else follows the rule;
    the system prompt ends with the vote field described as null. *)
Theorem day_one_null_vote (self : Player.t) (game_state : GameState.t) :
  GameState.phase game_state = lit "Day" ->
  GameState.turn game_state = 1%Z ->
  Player._build_turn_prompt self game_state
  = Player.turn_context self game_state
      ++ (nl ++ lit "---" ++ nl)
      ++ (lit "DAY 1. Speak once, make it count." ++ nl)
      ++ (lit "No voting today. vote=null." ++ nl)
  /\ Player.vote_desc self game_state = lit "null"
  /\ exists head,
       Player._build_system_prompt self game_state
       = head ++ (dq ++ lit "vote" ++ dq ++ lit ": " ++ dq ++ lit "null" ++ dq
                     ++ lit "}" ++ nl).
Proof.
  intros Hphase Hturn.
  assert (Hdesc : Player.vote_desc self game_state = lit "null").
  { unfold Player.vote_desc. rewrite Hphase, Hturn. reflexivity. }
  split; [|split; [exact Hdesc|]].
  - unfold Player._build_turn_prompt, Player.turn_instructions.
    rewrite Hphase, Hturn. reflexivity.
  - unfold Player._build_system_prompt. cbv zeta. rewrite Hdesc.
    eexists. reflexivity.
Qed.

Lemma day_one_null_vote_witness :
  let self := sample_player failing_client (lit "Mafia") (lit "blend in") (Some (lit "Bob")) in
  Player._build_turn_prompt self day_one
  = Player.turn_context self day_one
      ++ (nl ++ lit "---" ++ nl)
      ++ (lit "DAY 1. Speak once, make it count." ++ nl)
      ++ (lit "No voting today. vote=null." ++ nl).
Proof.
  cbv zeta.
  apply (day_one_null_vote
           (sample_player failing_client (lit "Mafia") (lit "blend in") (Some (lit "Bob")))
           day_one); reflexivity.
Defined.

(** C9, as stated, fails on two counts.  The prompt copies the agent's
    memory as it is, so it can contain two of the three phrases: here
    the partner-alive phrase that the code chose and the last-Mafia
    phrase that the memory holds.  And the last-Mafia phrase is also
    what an agent gets whose partner reference is set, to the empty
    name. *)
Lemma partner_phrase_not_unique :
  let haunted :=
    Player.mk (sample_state (lit "Mafia") []) failing_client 3 (Some (lit "Cy"))
      (lit "You're the last Mafia.") true in
  let unnamed :=
    Player.set_partner (sample_player failing_client (lit "Mafia") [] None) [] in
  contains (lit "Partner: Cy (alive)." ++ nl)
           (Player._build_system_prompt haunted day_one) = true
  /\ contains (lit "You're the last Mafia." ++ nl)
              (Player._build_system_prompt haunted day_one) = true
  /\ Player.partner_name unnamed = Some []
  /\ contains (lit "You're the last Mafia." ++ nl)
              (Player._build_system_prompt unnamed day_one) = true
  /\ contains (lit "Partner: ") (Player._build_system_prompt unnamed day_one)
     = false.
Proof.
  cbv zeta. repeat split; vm_compute; reflexivity.
Qed.

(** C9 (amended): for a Mafia agent the system prompt is its first
    line, then exactly one partner-status line, then the Mafia goal
    line, then the rest.  The line says the partner is alive when the
    partner reference is a non-empty name and the first roster entry
    with that name has its alive flag set; it says the partner is dead
    when the reference is a non-empty name and the roster has no such
    living first entry; it says the agent is the last Mafia when the
    reference is absent or is the empty name.  The three lines are
    pairwise different. *)
Theorem mafia_partner_status (self : Player.t) (game_state : GameState.t) :
  PlayerState.role (Player.state self) = lit "Mafia" ->
  let prompt := Player._build_system_prompt self game_state in
  let lookup pn :=
    find (fun p => str_eqb (PlayerState.name p) pn) (GameState.players game_state) in
  let first_line :=
    lit "MAFIA GAME. You: " ++ PlayerState.name (Player.state self)
      ++ lit " (Mafia). 8 players: 2 Mafia, 6 Villagers." ++ nl in
  let goal := lit "GOAL: Deceive town, eliminate until you outnumber them." ++ nl in
  exists rest,
    (forall pn partner,
        Player.partner_name self = Some pn -> pn <> [] ->
        lookup pn = Some partner -> PlayerState.is_alive partner = true ->
        prompt = first_line ++ (lit "Partner: " ++ pn ++ lit " (alive)." ++ nl)
                   ++ goal ++ rest)
    /\ (forall pn,
        Player.partner_name self = Some pn -> pn <> [] ->
        (forall partner, lookup pn = Some partner ->
                         PlayerState.is_alive partner = false) ->
        prompt = first_line ++ (lit "Partner: " ++ pn ++ lit " (dead)." ++ nl)
                   ++ goal ++ rest)
    /\ (Player.partner_name self = None \/ Player.partner_name self = Some [] ->
        prompt = first_line ++ (lit "You're the last Mafia." ++ nl) ++ goal ++ rest)
    /\ (forall pn : pystr,
        lit "Partner: " ++ pn ++ lit " (alive)." ++ nl
          <> lit "Partner: " ++ pn ++ lit " (dead)." ++ nl
        /\ lit "Partner: " ++ pn ++ lit " (alive)." ++ nl
           <> lit "You're the last Mafia." ++ nl
        /\ lit "Partner: " ++ pn ++ lit " (dead)." ++ nl
           <> lit "You're the last Mafia." ++ nl).
Proof.
  intros Hrole. cbv zeta.
  assert (Hmafia : Player.is_mafia self = true).
  { unfold Player.is_mafia. rewrite Hrole. reflexivity. }
  exists (match Player.memory self with
          | [] => []
          | _ :: _ => Player.memory_block self
          end
          ++ Player.output_header
          ++ Player.speech_line (Player.speech_desc self game_state)
          ++ Player.vote_line (Player.vote_desc self game_state)).
  unfold Player._build_system_prompt, Player.system_intro, Player.mafia_goal.
  cbv zeta. rewrite Hmafia, Hrole.
  repeat split.
  - intros pn partner Hpn Hne Hfind Halive.
    unfold Player.partner_alive, Player.alive_phrase, Player.name_is.
    rewrite Hpn. cbn [truthy_opt Player.fmt_opt].
    destruct pn as [|c pn']; [contradiction|]. cbn [truthy].
    rewrite Hfind, Halive.
    destruct (Player.memory self) as [|m ms]; cbn [truthy];
      repeat rewrite <- app_assoc; reflexivity.
  - intros pn Hpn Hne Hdead.
    unfold Player.partner_alive, Player.dead_phrase, Player.name_is.
    rewrite Hpn. cbn [truthy_opt Player.fmt_opt].
    destruct pn as [|c pn']; [contradiction|]. cbn [truthy].
    destruct (find _ _) as [partner|] eqn:Hfind.
    + rewrite (Hdead partner eq_refl).
      destruct (Player.memory self) as [|m ms]; cbn [truthy];
        repeat rewrite <- app_assoc; reflexivity.
    + destruct (Player.memory self) as [|m ms]; cbn [truthy];
        repeat rewrite <- app_assoc; reflexivity.
  - intros [Hnone|Hempty]; unfold Player.partner_alive, Player.last_mafia_phrase.
    + rewrite Hnone. cbn [truthy_opt].
      destruct (Player.memory self) as [|m ms]; cbn [truthy];
        repeat rewrite <- app_assoc; reflexivity.
    + rewrite Hempty. cbn [truthy_opt truthy].
      destruct (Player.memory self) as [|m ms]; cbn [truthy];
        repeat rewrite <- app_assoc; reflexivity.
  - intros H. apply app_inv_head in H. apply app_inv_head in H. discriminate H.
  - discriminate.
  - discriminate.
Qed.

Lemma mafia_partner_status_witness :
  let self := sample_player failing_client (lit "Mafia") (lit "blend in") (Some (lit "Bob")) in
  exists rest,
    Player._build_system_prompt self day_one
    = (lit "MAFIA GAME. You: Ada (Mafia). 8 players: 2 Mafia, 6 Villagers." ++ nl)
        ++ (lit "Partner: Bob (dead)." ++ nl)
        ++ (lit "GOAL: Deceive town, eliminate until you outnumber them." ++ nl)
        ++ rest.
Proof.
  cbv zeta.
  pose proof (mafia_partner_status
                (sample_player failing_client (lit "Mafia") (lit "blend in") (Some (lit "Bob")))
                day_one eq_refl) as H.
  cbv zeta in H. destruct H as [rest [_ [Hdead _]]].
  exists rest.
  refine (eq_trans (Hdead (lit "Bob") eq_refl _ _) _).
  - discriminate.
  - intros partner Hfind. vm_compute in Hfind.
    injection Hfind as <-. reflexivity.
  - reflexivity.
Defined.

(* ===================================================================== *)
(** * The dispatcher: [generate_turn] *)
(* ===================================================================== *)

Lemma lit_no_surrogate (s : string) : existsb is_surrogate (lit s) = false.
Proof.
  unfold lit. induction (list_ascii_of_string s) as [|a l IH]; [reflexivity|].
  cbn [map existsb]. rewrite IH, orb_false_r.
  unfold is_surrogate. pose proof (N_ascii_bounded a) as Hb.
  apply andb_false_iff. left. apply N.leb_gt. lia.
Qed.

Lemma encodable_no_surrogate (s : pystr) :
  encodable s <-> existsb is_surrogate s = false.
Proof.
  unfold encodable, is_surrogate.
  induction s as [|c s IH]; cbn [existsb].
  - split; [reflexivity|constructor].
  - rewrite orb_false_iff, andb_false_iff, !N.leb_gt, <- IH. split.
    + intros H. inversion H; subst. split; [lia|assumption].
    + intros [Hc Hs]. constructor; [lia|assumption].
Qed.

Lemma surrogate_not_encodable (s : pystr) :
  existsb is_surrogate s = true -> ~ encodable s.
Proof. intros H E. apply encodable_no_surrogate in E. congruence. Qed.

Lemma separator_text :
  UnifiedLLMClient.separator
  = lit "--------------------------------------------------------------------------------".
Proof. reflexivity. Qed.

Lemma history_record_no_surrogate (turn : Z) (prompt response : pystr) :
  existsb is_surrogate (UnifiedLLMClient.history_record turn prompt response)
  = existsb is_surrogate prompt || existsb is_surrogate response.
Proof.
  unfold UnifiedLLMClient.history_record, str_of_int.
  rewrite separator_text. unfold nl.
  rewrite !existsb_app, !lit_no_surrogate. cbn [existsb].
  replace (is_surrogate 10) with false by reflexivity.
  rewrite ?orb_false_r, ?orb_false_l. reflexivity.
Qed.

Lemma grew_refl (path : pystr) (w : World) : grew path w w.
Proof.
  split; [reflexivity|]. intros p c Hc. exists []. now rewrite app_nil_r.
Qed.

Lemma grew_trans (path : pystr) (w1 w2 w3 : World) :
  grew path w1 w2 -> grew path w2 w3 -> grew path w1 w3.
Proof.
  intros [Hf1 Ha1] [Hf2 Ha2]. split.
  - intros p Hp. now rewrite (Hf2 p Hp), (Hf1 p Hp).
  - intros p c Hc. destruct (Ha1 p c Hc) as [a1 H1].
    destruct (Ha2 p _ H1) as [a2 H2]. exists (a1 ++ a2). now rewrite app_assoc.
Qed.

Lemma grew_with_file (path : pystr) (added : pystr) (w : World) :
  grew path w
    (with_file path (match files w path with Some c => c | None => [] end ++ added) w).
Proof.
  split.
  - intros p Hp. cbn [with_file files]. now rewrite (str_eqb_neq _ _ Hp).
  - intros p c Hc. cbn [with_file files]. destruct (str_eqb p path) eqn:E.
    + apply str_eqb_eq in E. subst p. rewrite Hc. now exists added.
    + exists []. now rewrite app_nil_r.
Qed.

Section Dispatch.
Context `{RT : Runtime}.

Lemma cli_command_of_unmapped (provider : pystr) :
  provider <> lit "openai" -> provider <> lit "anthropic" ->
  provider <> lit "google" -> provider <> lit "groq" ->
  UnifiedLLMClient.cli_command_of provider = None.
Proof.
  intros H1 H2 H3 H4. unfold UnifiedLLMClient.cli_command_of.
  now rewrite !str_eqb_neq.
Qed.

Lemma log_debug_off (self : UnifiedLLMClient.t) (player : pystr) (turn : Z)
      (prompt response : pystr) (w : World) :
  UnifiedLLMClient.debug self = false ->
  UnifiedLLMClient._log_debug self player turn prompt response w = (Ok tt, w).
Proof. intros H. unfold UnifiedLLMClient._log_debug. now rewrite H. Qed.

(** The three ways [_log_debug] ends when [debug] is set: the file does
    not open; the record cannot be encoded; the record is appended. *)
Lemma log_debug_cases (self : UnifiedLLMClient.t) (player : pystr) (turn : Z)
      (prompt response : pystr) (w : World) :
  UnifiedLLMClient.debug self = true ->
  let path := UnifiedLLMClient.history_path player in
  let record := UnifiedLLMClient.history_record turn prompt response in
  let old := match files w path with Some c => c | None => [] end in
  (exists e, open_append path w = Some e
             /\ UnifiedLLMClient._log_debug self player turn prompt response w
                = (Raise e, w))
  \/ (open_append path w = None
      /\ existsb is_surrogate record = true
      /\ UnifiedLLMClient._log_debug self player turn prompt response w
         = (Raise (UnicodeEncodeError record), with_file path old w))
  \/ (open_append path w = None
      /\ existsb is_surrogate record = false
      /\ UnifiedLLMClient._log_debug self player turn prompt response w
         = (Ok tt, with_file path (old ++ record) w)).
Proof.
  intros Hdebug. cbv zeta. unfold UnifiedLLMClient._log_debug, append_file.
  rewrite Hdebug. cbn [negb].
  destruct (open_append _ w) as [e|]; [left; now exists e|right].
  destruct (existsb is_surrogate _); [left|right]; repeat split.
Qed.

Lemma log_debug_trace (self : UnifiedLLMClient.t) (player : pystr) (turn : Z)
      (prompt response : pystr) (w : World) :
  trace (snd (UnifiedLLMClient._log_debug self player turn prompt response w))
  = trace w.
Proof.
  unfold UnifiedLLMClient._log_debug, append_file.
  destruct (UnifiedLLMClient.debug self); cbn [negb]; [|reflexivity].
  destruct (open_append _ w); [reflexivity|].
  destruct (existsb is_surrogate _); reflexivity.
Qed.

Lemma log_debug_grew (self : UnifiedLLMClient.t) (player : pystr) (turn : Z)
      (prompt response : pystr) (w : World) :
  grew (UnifiedLLMClient.history_path player) w
       (snd (UnifiedLLMClient._log_debug self player turn prompt response w)).
Proof.
  unfold UnifiedLLMClient._log_debug, append_file.
  destruct (UnifiedLLMClient.debug self); cbn [negb]; [|apply grew_refl].
  destruct (open_append _ w); [apply grew_refl|].
  destruct (existsb is_surrogate _); cbn [snd].
  - pose proof (grew_with_file (UnifiedLLMClient.history_path player) [] w) as H.
    now rewrite app_nil_r in H.
  - apply grew_with_file.
Qed.

(** [generate_turn] path by path: [failed e] is the handler, which
    records the error and raises it again, unless recording raises. *)
Lemma generate_turn_paths
      (self : UnifiedLLMClient.t)
      (player_name provider model_name system_prompt turn_prompt : pystr)
      (turn_number : Z) (w : World) :
  let full_prompt := UnifiedLLMClient.full_prompt_of system_prompt turn_prompt in
  let failed (e : exn) (w0 : World) : result TurnOutput.t * World :=
    match UnifiedLLMClient._log_debug self player_name turn_number full_prompt
            (lit "ERROR: " ++ str_exn e) w0 with
    | (Ok _, w1) => (Raise e, w1)
    | (Raise e', w1) => (Raise e', w1)
    end in
  UnifiedLLMClient.generate_turn self player_name provider model_name
    system_prompt turn_prompt turn_number w
  = match UnifiedLLMClient.cli_command_of provider with
    | None => failed (ValueError (lit "No CLI tool mapped for provider " ++ provider)) w
    | Some command =>
        let argv := UnifiedLLMClient.cli_argv command model_name full_prompt in
        let w1 := mkWorld (files w) (trace w ++ [Spawn argv]) in
        match subprocess_run argv w with
        | Raise e => failed e w1
        | Ok text =>
            match UnifiedLLMClient._log_debug self player_name turn_number
                    full_prompt text w1 with
            | (Raise e, w2) => failed e w2
            | (Ok _, w2) =>
                match UnifiedLLMClient._parse_and_validate text with
                | Ok out => (Ok out, w2)
                | Raise e => failed e w2
                end
            end
        end
    end.
Proof.
  cbv zeta.
  unfold UnifiedLLMClient.generate_turn, UnifiedLLMClient.cli_response.
  unfold try_except, bind, raise, lift. cbn [UnifiedLLMClient.USE_CLI].
  destruct (UnifiedLLMClient.cli_command_of provider) as [command|].
  - unfold UnifiedLLMClient._call_cli, try_except, external, raise.
    destruct (subprocess_run _ w) as [text|e].
    + destruct (UnifiedLLMClient._log_debug self player_name turn_number _ text _)
        as [[u|e1] w2].
      * destruct (UnifiedLLMClient._parse_and_validate text) as [out|e2];
          [reflexivity|].
        destruct (UnifiedLLMClient._log_debug _ _ _ _ _ w2) as [[u'|e3] w3];
          reflexivity.
      * destruct (UnifiedLLMClient._log_debug _ _ _ _ _ w2) as [[u'|e3] w3];
          reflexivity.
    + destruct e;
        destruct (UnifiedLLMClient._log_debug _ _ _ _ _ _) as [[u'|e3] w3];
        reflexivity.
  - destruct (UnifiedLLMClient._log_debug _ _ _ _ _ w) as [[u'|e3] w3];
      reflexivity.
Qed.

Lemma full_prompt_text (system_prompt turn_prompt : pystr) :
  UnifiedLLMClient.full_prompt_of system_prompt turn_prompt
  = system_prompt ++ nl ++ nl ++ turn_prompt ++ nl ++ nl
      ++ lit "IMPORTANT: Return ONLY JSON object.".
Proof.
  unfold UnifiedLLMClient.full_prompt_of. cbn [UnifiedLLMClient.USE_CLI].
  now rewrite <- !app_assoc.
Qed.


Ltac log_cases Hd :=
  match goal with
  | |- context [UnifiedLLMClient._log_debug ?s ?p ?t ?a ?b ?w0] =>
      let e := fresh "e" in
      let Ho := fresh "Hopen" in
      let Hs := fresh "Hsur" in
      let Hl := fresh "Hlog" in
      destruct (log_debug_cases s p t a b w0 Hd)
        as [[e [Ho Hl]]|[[Ho [Hs Hl]]|[Ho [Hs Hl]]]];
      rewrite Hl; clear Hl; cbv beta iota
  end.

Ltac log_open :=
  match goal with
  | |- context [UnifiedLLMClient._log_debug ?s ?p ?t ?a ?b ?w0] =>
      let Ht := fresh "Ht" in
      let Hg := fresh "Hg" in
      pose proof (log_debug_trace s p t a b w0) as Ht;
      pose proof (log_debug_grew s p t a b w0) as Hg;
      destruct (UnifiedLLMClient._log_debug s p t a b w0) as [[[]|?e] ?w];
      cbn [fst snd] in Ht, Hg; cbv beta iota
  end.

(** What [generate_turn] does to the files: only the audit file of the
    player changes, and only at its end. *)
Lemma generate_turn_grew
      (self : UnifiedLLMClient.t)
      (player_name provider model_name system_prompt turn_prompt : pystr)
      (turn_number : Z) (w : World) :
  grew (UnifiedLLMClient.history_path player_name) w
       (snd (UnifiedLLMClient.generate_turn self player_name provider model_name
               system_prompt turn_prompt turn_number w)).
Proof.
  rewrite generate_turn_paths. cbv zeta.
  assert (Hspawn : forall ev,
    grew (UnifiedLLMClient.history_path player_name) w
         (mkWorld (files w) (trace w ++ ev))).
  { intros ev. split; [reflexivity|]. intros p c Hc. exists [].
    now rewrite app_nil_r. }
  destruct (UnifiedLLMClient.cli_command_of provider) as [command|].
  - destruct (subprocess_run _ w) as [text|e].
    + log_open.
      * destruct (UnifiedLLMClient._parse_and_validate text) as [out|e2].
        -- cbn [snd]. eapply grew_trans; [apply Hspawn|exact Hg].
        -- log_open; cbn [snd];
             (eapply grew_trans; [apply Hspawn|]);
             (eapply grew_trans; [exact Hg|exact Hg0]).
      * log_open; cbn [snd];
          (eapply grew_trans; [apply Hspawn|]);
          (eapply grew_trans; [exact Hg|exact Hg0]).
    + log_open; cbn [snd]; (eapply grew_trans; [apply Hspawn|exact Hg]).
  - log_open; cbn [snd]; exact Hg.
Qed.




(** C6 (amended): in local-tool mode (the mode [generate_turn] runs
    in), for a provider other than the four mapped keys the call always
    raises and no external call has been made when it does: the trace
    is the one before the call.  What it raises is the error for a
    missing tool mapping, the [ValueError] with the text [No CLI tool
    mapped for provider <provider>], whenever the [debug] flag is off,
    and whenever the audit file opens and the prompts and the provider
    can be encoded; otherwise the flag is set and what it raises is the
    error of the audit write made on the way out. *)
Theorem unmapped_provider_raises_before_spawn
        (self : UnifiedLLMClient.t)
        (player_name provider model_name system_prompt turn_prompt : pystr)
        (turn_number : Z) (w : World) :
  provider <> lit "openai" -> provider <> lit "anthropic" ->
  provider <> lit "google" -> provider <> lit "groq" ->
  let outcome :=
    UnifiedLLMClient.generate_turn self player_name provider model_name
      system_prompt turn_prompt turn_number w in
  let path := lit "logs/" ++ player_name ++ lit "_history.txt" in
  let missing_tool := ValueError (lit "No CLI tool mapped for provider " ++ provider) in
  UnifiedLLMClient.USE_CLI = true
  /\ trace (snd outcome) = trace w
  /\ (exists e, fst outcome = Raise e)
  /\ (UnifiedLLMClient.debug self = false -> fst outcome = Raise missing_tool)
  /\ (open_append path w = None ->
      encodable system_prompt -> encodable turn_prompt -> encodable provider ->
      fst outcome = Raise missing_tool)
  /\ (fst outcome = Raise missing_tool
      \/ (UnifiedLLMClient.debug self = true
          /\ exists e, fst outcome = Raise e
                       /\ (open_append path w = Some e
                           \/ exists text, e = UnicodeEncodeError text
                                           /\ ~ encodable text))).
Proof.
  intros H1 H2 H3 H4. cbv zeta. split; [reflexivity|].
  rewrite generate_turn_paths. cbv zeta.
  rewrite (cli_command_of_unmapped provider H1 H2 H3 H4).
  change (lit "logs/" ++ player_name ++ lit "_history.txt")
    with (UnifiedLLMClient.history_path player_name).
  destruct (UnifiedLLMClient.debug self) eqn:Hd.
  - log_cases Hd; cbn [fst snd trace with_file].
    + split; [reflexivity|]. split; [now eexists|]. split; [discriminate|].
      split; [intros Ho; congruence|].
      right. split; [reflexivity|]. eexists. split; [reflexivity|now left].
    + split; [reflexivity|]. split; [now eexists|]. split; [discriminate|].
      split.
      * intros _ Hs Ht Hp. exfalso.
        rewrite history_record_no_surrogate, full_prompt_text in Hsur.
        apply encodable_no_surrogate in Hs, Ht, Hp.
        cbn [str_exn] in Hsur. unfold nl in Hsur.
        rewrite !existsb_app, !lit_no_surrogate, Hs, Ht, Hp in Hsur.
        cbn in Hsur. discriminate Hsur.
      * right. split; [reflexivity|]. eexists. split; [reflexivity|].
        right. eexists. split; [reflexivity|].
        now apply surrogate_not_encodable.
    + split; [reflexivity|]. split; [now eexists|]. split; [reflexivity|].
      split; [reflexivity|now left].
  - rewrite (log_debug_off _ _ _ _ _ _ Hd). cbn [fst snd].
    split; [reflexivity|]. split; [now eexists|]. split; [reflexivity|].
    split; [reflexivity|now left].
Qed.


(** X7: one call spawns at most one process and makes no request to a
    hosted service: the trace grows by the one spawn of the mapped
    tool, with the full prompt as its last argument, or not at all. *)
Theorem generate_turn_spawns_once
        (self : UnifiedLLMClient.t)
        (player_name provider model_name system_prompt turn_prompt : pystr)
        (turn_number : Z) (w : World) :
  trace (snd (UnifiedLLMClient.generate_turn self player_name provider model_name
                system_prompt turn_prompt turn_number w))
  = trace w
      ++ match UnifiedLLMClient.cli_command_of provider with
         | None => []
         | Some command =>
             [Spawn (UnifiedLLMClient.cli_argv command model_name
                       (UnifiedLLMClient.full_prompt_of system_prompt turn_prompt))]
         end.
Proof.
  rewrite generate_turn_paths. cbv zeta.
  destruct (UnifiedLLMClient.cli_command_of provider) as [command|].
  - destruct (subprocess_run _ w) as [text|e].
    + log_open.
      * destruct (UnifiedLLMClient._parse_and_validate text) as [out|e2].
        -- cbn [snd]. exact Ht.
        -- log_open; cbn [snd]; now rewrite Ht0, Ht.
      * log_open; cbn [snd]; now rewrite Ht0, Ht.
    + log_open; cbn [snd]; exact Ht.
  - rewrite app_nil_r. log_open; cbn [snd]; exact Ht.
Qed.


(** X9: [generate_turn] touches no file but the audit file of the
    player it is called for. *)
Theorem generate_turn_other_files
        (self : UnifiedLLMClient.t)
        (player_name provider model_name system_prompt turn_prompt : pystr)
        (turn_number : Z) (w : World) (path : pystr) :
  path <> UnifiedLLMClient.history_path player_name ->
  files (snd (UnifiedLLMClient.generate_turn self player_name provider model_name
                system_prompt turn_prompt turn_number w)) path
  = files w path.
Proof.
  apply (generate_turn_grew self player_name provider model_name
           system_prompt turn_prompt turn_number w).
Qed.

(** X10: the audit file is append-only: what a file held before a call is
    a prefix of what it holds after. *)
Theorem generate_turn_append_only
        (self : UnifiedLLMClient.t)
        (player_name provider model_name system_prompt turn_prompt : pystr)
        (turn_number : Z) (w : World) (path content : pystr) :
  files w path = Some content ->
  exists added,
    files (snd (UnifiedLLMClient.generate_turn self player_name provider model_name
                  system_prompt turn_prompt turn_number w)) path
    = Some (content ++ added).
Proof.
  apply (generate_turn_grew self player_name provider model_name
           system_prompt turn_prompt turn_number w).
Qed.

(** X20: an audit file that cannot be opened makes every call fail: on
    a client with [debug] set, if opening the player's audit file
    raises the same error in every world, then [generate_turn] raises
    that error, whatever the provider, the local tool's answer and the
    parser say, and no file is changed. *)
Theorem generate_turn_closed_audit
        (self : UnifiedLLMClient.t)
        (player_name provider model_name system_prompt turn_prompt : pystr)
        (turn_number : Z) (w : World) (closed : exn) :
  UnifiedLLMClient.debug self = true ->
  (forall w', open_append (lit "logs/" ++ player_name ++ lit "_history.txt") w'
              = Some closed) ->
  fst (UnifiedLLMClient.generate_turn self player_name provider model_name
         system_prompt turn_prompt turn_number w)
  = Raise closed
  /\ files (snd (UnifiedLLMClient.generate_turn self player_name provider model_name
                   system_prompt turn_prompt turn_number w))
     = files w.
Proof.
  intros Hd Hclosed.
  change (lit "logs/" ++ player_name ++ lit "_history.txt")
    with (UnifiedLLMClient.history_path player_name) in Hclosed.
  rewrite generate_turn_paths. cbv zeta.
  destruct (UnifiedLLMClient.cli_command_of provider) as [command|].
  - destruct (subprocess_run _ w) as [text|e].
    + log_cases Hd; try (rewrite Hclosed in Hopen; discriminate Hopen).
      log_cases Hd; try (rewrite Hclosed in Hopen0; discriminate Hopen0).
      rewrite Hclosed in Hopen, Hopen0. injection Hopen0 as <-.
      split; reflexivity.
    + log_cases Hd; try (rewrite Hclosed in Hopen; discriminate Hopen).
      rewrite Hclosed in Hopen. injection Hopen as <-. split; reflexivity.
  - log_cases Hd; try (rewrite Hclosed in Hopen; discriminate Hopen).
    rewrite Hclosed in Hopen. injection Hopen as <-. split; reflexivity.
Qed.

End Dispatch.

Lemma unmapped_provider_raises_before_spawn_witness :
  fst (UnifiedLLMClient.generate_turn (RT := sample_runtime)
         (UnifiedLLMClient.mk true) (lit "3_Ada") (lit "xai") (lit "grok")
         (lit "system") (lit "turn") 2 empty_world)
  = Raise (ValueError (lit "No CLI tool mapped for provider " ++ lit "xai"))
  /\ trace (snd (UnifiedLLMClient.generate_turn (RT := sample_runtime)
                   (UnifiedLLMClient.mk true) (lit "3_Ada") (lit "xai") (lit "grok")
                   (lit "system") (lit "turn") 2 empty_world))
     = [].
Proof.
  pose proof (@unmapped_provider_raises_before_spawn sample_runtime
                (UnifiedLLMClient.mk true) (lit "3_Ada") (lit "xai") (lit "grok")
                (lit "system") (lit "turn") 2%Z empty_world) as H.
  cbv zeta in H.
  destruct H as [_ [Htrace [_ [_ [Hraise _]]]]]; try discriminate.
  split; [|exact Htrace].
  apply Hraise; [reflexivity| | |];
    apply encodable_no_surrogate; reflexivity.
Defined.

(** C6, as stated, fails: with the [debug] flag set and a player name
    whose audit file cannot be opened, the call for an unmapped
    provider raises the error of [open], not the error for the missing
    tool mapping. *)
Lemma unmapped_provider_error_masked :
  let outcome :=
    UnifiedLLMClient.generate_turn (RT := flat_logs_runtime)
      (UnifiedLLMClient.mk true) (lit "a/b") (lit "xai") (lit "grok")
      (lit "system") (lit "turn") 2 empty_world in
  UnifiedLLMClient.cli_command_of (lit "xai") = None
  /\ fst outcome
     = Raise (OSError (lit "FileNotFoundError") (lit "logs/a/b_history.txt"))
  /\ fst outcome
     <> Raise (ValueError (lit "No CLI tool mapped for provider " ++ lit "xai")).
Proof.
  cbv zeta. split; [reflexivity|]. split; [vm_compute; reflexivity|].
  vm_compute. discriminate.
Qed.



Lemma generate_turn_other_files_witness :
  files (snd (UnifiedLLMClient.generate_turn (RT := sample_runtime)
                (UnifiedLLMClient.mk true) (lit "3_Ada") (lit "openai") (lit "gpt")
                (lit "system") (lit "turn") 2 used_world))
        (lit "memories/Ada.txt")
  = files used_world (lit "memories/Ada.txt").
Proof.
  apply (@generate_turn_other_files sample_runtime). vm_compute. discriminate.
Defined.

Lemma generate_turn_append_only_witness :
  exists added,
    files (snd (UnifiedLLMClient.generate_turn (RT := broken_runtime)
                  (UnifiedLLMClient.mk true) (lit "3_Ada") (lit "openai") (lit "gpt")
                  (lit "system") (lit "turn") 2 used_world))
          (lit "logs/3_Ada_history.txt")
    = Some (lit "old" ++ added).
Proof.
  apply (@generate_turn_append_only broken_runtime). reflexivity.
Defined.

Lemma generate_turn_closed_audit_witness :
  fst (UnifiedLLMClient.generate_turn (RT := flat_logs_runtime)
         (UnifiedLLMClient.mk true) (lit "a/b") (lit "openai") (lit "gpt")
         (lit "system") (lit "turn") 2 used_world)
  = Raise (OSError (lit "FileNotFoundError") (lit "logs/a/b_history.txt"))
  /\ files (snd (UnifiedLLMClient.generate_turn (RT := flat_logs_runtime)
                   (UnifiedLLMClient.mk true) (lit "a/b") (lit "openai") (lit "gpt")
                   (lit "system") (lit "turn") 2 used_world))
     = files used_world.
Proof.
  apply (@generate_turn_closed_audit flat_logs_runtime (UnifiedLLMClient.mk true)
           (lit "a/b") (lit "openai") (lit "gpt") (lit "system") (lit "turn") 2%Z
           used_world (OSError (lit "FileNotFoundError") (lit "logs/a/b_history.txt"))).
  - reflexivity.
  - intros w'. reflexivity.
Defined.

(* ===================================================================== *)
(** * Facts about [json.loads] *)
(* ===================================================================== *)

#[local] Arguments is_digit : simpl never.
#[local] Arguments is_json_ws : simpl never.
#[local] Arguments isspace : simpl never.
#[local] Arguments hex4 : simpl never.
#[local] Arguments simple_escape : simpl never.
#[local] Arguments is_high_surrogate : simpl never.
#[local] Arguments is_low_surrogate : simpl never.
#[local] Arguments N.eqb : simpl never.
#[local] Arguments N.ltb : simpl never.

Lemma skip_ws_split (t : pystr) :
  exists w, t = w ++ skip_ws t /\ ws_only w.
Proof.
  induction t as [|x t IH]; simpl.
  - exists []. split; [reflexivity|constructor].
  - destruct (is_json_ws x) eqn:E.
    + destruct IH as [w [Ht Hw]]. exists (x :: w). split.
      * simpl. now f_equal.
      * now constructor.
    + exists []. split; [reflexivity|constructor].
Qed.

Lemma skip_ws_app (w t : pystr) : ws_only w -> skip_ws (w ++ t) = skip_ws t.
Proof.
  induction 1 as [|x w Hx _ IH]; simpl; [reflexivity|].
  now rewrite Hx.
Qed.

Lemma skip_ws_head (t : pystr) (x : N) (r : pystr) :
  skip_ws t = x :: r -> is_json_ws x = false.
Proof.
  induction t as [|y t IH]; simpl; [discriminate|].
  destruct (is_json_ws y) eqn:E; [exact IH|].
  intros H. injection H as -> _. exact E.
Qed.

Lemma skip_ws_stop (x : N) (r : pystr) :
  is_json_ws x = false -> skip_ws (x :: r) = x :: r.
Proof. intros H. simpl. now rewrite H. Qed.

Lemma skip_ws_nil (t : pystr) : skip_ws t = [] -> ws_only t.
Proof.
  induction t as [|y t IH]; simpl; [constructor|].
  destruct (is_json_ws y) eqn:E; [|discriminate].
  intros H. constructor; [exact E|exact (IH H)].
Qed.

Lemma json_ws_isspace (x : N) : is_json_ws x = true -> isspace x = true.
Proof.
  unfold is_json_ws. intros H.
  repeat (apply orb_true_iff in H as [H|H]);
    apply N.eqb_eq in H; subst; reflexivity.
Qed.

Lemma json_ws_not_num_cont (x : N) : is_json_ws x = true -> num_cont x = false.
Proof.
  unfold is_json_ws. intros H.
  repeat (apply orb_true_iff in H as [H|H]);
    apply N.eqb_eq in H; subst; reflexivity.
Qed.

(** ** Digits and numbers *)

Lemma take_digits_split (t d r : pystr) :
  take_digits t = (d, r) ->
  t = d ++ r /\ all_digits d /\ no_digit_ahead r = true.
Proof.
  revert d r; induction t as [|x t IH]; simpl; intros d r H.
  - injection H as <- <-. repeat split. constructor.
  - destruct (is_digit x) eqn:E.
    + destruct (take_digits t) as [d0 r0]. injection H as <- <-.
      destruct (IH d0 r0 eq_refl) as [Ht [Hd Hr]]. subst t.
      repeat split; auto. now constructor.
    + injection H as <- <-. repeat split; [constructor|].
      simpl. now rewrite E.
Qed.

Lemma take_digits_app (d r : pystr) :
  all_digits d -> no_digit_ahead r = true -> take_digits (d ++ r) = (d, r).
Proof.
  intros Hd Hr. induction Hd as [|x d Hx _ IH]; simpl.
  - destruct r as [|y r]; [reflexivity|]. simpl in Hr.
    apply negb_true_iff in Hr. simpl. now rewrite Hr.
  - now rewrite Hx, IH.
Qed.

Lemma follows_no_digit (r : pystr) : follows r = true -> no_digit_ahead r = true.
Proof.
  destruct r as [|x r]; simpl; [reflexivity|].
  unfold num_cont. intros H. apply negb_true_iff in H.
  apply negb_true_iff.
  destruct (is_digit x); [discriminate|reflexivity].
Qed.

Lemma scan_int_stable (t i r : pystr) :
  scan_int t = Some (i, r) ->
  t = i ++ r
  /\ (exists x i', i = x :: i' /\ is_digit x = true)
  /\ forall r', no_digit_ahead r' = true -> scan_int (i ++ r') = Some (i, r').
Proof.
  destruct t as [|c t]; simpl; [discriminate|].
  destruct (c =? 48)%N eqn:E0.
  - intros H. injection H as <- <-. apply N.eqb_eq in E0. subst c.
    repeat split. now exists 48%N, [].
  - destruct (is_digit c) eqn:Ed; [|discriminate].
    destruct (take_digits t) as [d r0] eqn:Et. intros H. injection H as <- <-.
    destruct (take_digits_split _ _ _ Et) as [Ht [Hd Hr]]. subst t.
    repeat split.
    + now exists c, d.
    + intros r' Hr'. simpl. rewrite E0, Ed.
      now rewrite (take_digits_app d r' Hd Hr').
Qed.

Lemma follows_no_dot (r : pystr) : follows r = true -> no_dot_ahead r = true.
Proof.
  destruct r as [|x r]; simpl; [reflexivity|].
  unfold num_cont. intros H. apply negb_true_iff in H. apply negb_true_iff.
  destruct (x =? 46)%N; [|reflexivity].
  now rewrite !orb_true_r in H.
Qed.

Lemma follows_no_exp (r : pystr) : follows r = true -> no_exp_ahead r = true.
Proof.
  destruct r as [|x r]; simpl; [reflexivity|].
  unfold num_cont. intros H. apply negb_true_iff in H. apply negb_true_iff.
  destruct (x =? 101)%N, (x =? 69)%N; try reflexivity;
    now rewrite ?orb_true_r in H.
Qed.

Lemma digit_not_sign (x : N) :
  is_digit x = true -> ((x =? 43) || (x =? 45))%N = false.
Proof.
  unfold is_digit. intros H. apply andb_true_iff in H as [H1 H2].
  apply N.leb_le in H1. apply orb_false_iff.
  split; apply N.eqb_neq; lia.
Qed.

Lemma digit_not_minus (x : N) : is_digit x = true -> (x =? 45)%N = false.
Proof.
  intros H. apply digit_not_sign in H. now apply orb_false_iff in H as [_ H].
Qed.

Lemma scan_frac_stable (t f r : pystr) :
  scan_frac t = (f, r) ->
  t = f ++ r
  /\ (f = [] \/ exists f', f = 46%N :: f')
  /\ forall r', (f = [] -> no_dot_ahead r' = true) ->
                (f <> [] -> no_digit_ahead r' = true) ->
                scan_frac (f ++ r') = (f, r').
Proof.
  assert (Hnil : forall r', ([] = @nil N -> no_dot_ahead r' = true) ->
                            scan_frac ([] ++ r') = ([], r')).
  { intros r' Hr'. specialize (Hr' eq_refl).
    destruct r' as [|y r']; [reflexivity|]. cbn [app scan_frac].
    simpl in Hr'. apply negb_true_iff in Hr'. now rewrite Hr'. }
  destruct t as [|c t]; cbn [scan_frac].
  - intros H. injection H as <- <-. repeat split; [now left|]. intros; now apply Hnil.
  - destruct (c =? 46)%N eqn:Edot.
    + destruct (take_digits t) as [d r0] eqn:Et.
      destruct (take_digits_split _ _ _ Et) as [Ht [Hd Hr]]. subst t.
      destruct d as [|d0 d].
      * intros H. injection H as <- <-. repeat split; [now left|].
        intros; now apply Hnil.
      * intros H. injection H as <- <-. apply N.eqb_eq in Edot. subst c.
        repeat split; [right; now eexists|].
        intros r' _ Hr'. cbn [app scan_frac]. rewrite N.eqb_refl.
        assert (Hnd : no_digit_ahead r' = true) by (apply Hr'; discriminate).
        change (d0 :: d ++ r') with ((d0 :: d) ++ r').
        now rewrite (take_digits_app (d0 :: d) r' Hd Hnd).
    + intros H. injection H as <- <-. repeat split; [now left|].
      intros; now apply Hnil.
Qed.

Lemma scan_exp_stable (t e r : pystr) :
  scan_exp t = (e, r) ->
  t = e ++ r
  /\ (e = [] \/ exists x e', e = x :: e' /\ ((x =? 101) || (x =? 69))%N = true)
  /\ forall r', (e = [] -> no_exp_ahead r' = true) ->
                (e <> [] -> no_digit_ahead r' = true) ->
                scan_exp (e ++ r') = (e, r').
Proof.
  assert (Hnil : forall r', ([] = @nil N -> no_exp_ahead r' = true) ->
                            scan_exp ([] ++ r') = ([], r')).
  { intros r' Hr'. specialize (Hr' eq_refl).
    destruct r' as [|y r']; [reflexivity|]. cbn [app scan_exp].
    simpl in Hr'. apply negb_true_iff in Hr'. now rewrite Hr'. }
  destruct t as [|c t]; cbn [scan_exp].
  - intros H. injection H as <- <-. repeat split; [now left|]. intros; now apply Hnil.
  - destruct ((c =? 101) || (c =? 69))%N eqn:Ec.
    + destruct t as [|s t].
      * intros H. injection H as <- <-. repeat split; [now left|].
        intros; now apply Hnil.
      * destruct ((s =? 43) || (s =? 45))%N eqn:Es.
        -- destruct (take_digits t) as [d r0] eqn:Et.
           destruct (take_digits_split _ _ _ Et) as [Ht [Hd Hr]]. subst t.
           destruct d as [|d0 d].
           ++ intros H. injection H as <- <-. repeat split; [now left|].
              intros; now apply Hnil.
           ++ intros H. injection H as <- <-.
              repeat split; [right; now exists c, (s :: d0 :: d)|].
              intros r' _ Hr'. cbn [app scan_exp]. rewrite Ec, Es.
              assert (Hnd : no_digit_ahead r' = true) by (apply Hr'; discriminate).
              change (d0 :: d ++ r') with ((d0 :: d) ++ r').
              now rewrite (take_digits_app (d0 :: d) r' Hd Hnd).
        -- destruct (take_digits (s :: t)) as [d r0] eqn:Et.
           destruct (take_digits_split _ _ _ Et) as [Ht [Hd Hr]].
           destruct d as [|d0 d].
           ++ intros H. injection H as <- <-. repeat split; [now left|].
              intros; now apply Hnil.
           ++ intros H. injection H as <- <-.
              simpl in Ht. injection Ht as -> ->.
              repeat split; [right; now exists c, (d0 :: d)|].
              intros r' _ Hr'. cbn [app scan_exp]. rewrite Ec, Es.
              assert (Hnd : no_digit_ahead r' = true) by (apply Hr'; discriminate).
              change (d0 :: d ++ r') with ((d0 :: d) ++ r').
              now rewrite (take_digits_app (d0 :: d) r' Hd Hnd).
    + intros H. injection H as <- <-. repeat split; [now left|].
      intros; now apply Hnil.
Qed.

Lemma scan_number_stable (t : pystr) (v : json) (r : pystr) :
  scan_number t = Some (v, r) ->
  exists x c,
    t = x :: c ++ r
    /\ ((x =? 45)%N = true \/ is_digit x = true)
    /\ (exists b lex, v = JNumber b lex)
    /\ forall r', follows r' = true -> scan_number (x :: c ++ r') = Some (v, r').
Proof.
  assert (Hcore : forall t0 i t1 f t2 e t3 r',
    scan_int t0 = Some (i, t1) -> scan_frac t1 = (f, t2) -> scan_exp t2 = (e, t3) ->
    follows r' = true ->
    t0 = i ++ f ++ e ++ t3
    /\ (exists x i', i = x :: i' /\ is_digit x = true)
    /\ scan_int (i ++ f ++ e ++ r') = Some (i, f ++ e ++ r')
    /\ scan_frac (f ++ e ++ r') = (f, e ++ r')
    /\ scan_exp (e ++ r') = (e, r')).
  { intros t0 i t1 f t2 e t3 r' Hi Hf He Hr'.
    destruct (scan_int_stable _ _ _ Hi) as [E0 [Hhd Hi']].
    destruct (scan_frac_stable _ _ _ Hf) as [E1 [Hfs Hf']].
    destruct (scan_exp_stable _ _ _ He) as [E2 [Hes He']].
    subst t0 t1 t2. repeat split; auto.
    - apply Hi'.
      destruct Hfs as [->|[f' ->]]; [|reflexivity].
      destruct Hes as [->|[x [e' [-> Hx]]]]; [now apply follows_no_digit|].
      simpl. apply negb_true_iff. unfold is_digit.
      apply orb_true_iff in Hx as [Hx|Hx]; apply N.eqb_eq in Hx; subst; reflexivity.
    - apply Hf'.
      + intros ->. destruct Hes as [->|[x [e' [-> Hx]]]]; [now apply follows_no_dot|].
        simpl. apply negb_true_iff.
        apply orb_true_iff in Hx as [Hx|Hx]; apply N.eqb_eq in Hx; subst; reflexivity.
      + intros _. destruct Hes as [->|[x [e' [-> Hx]]]]; [now apply follows_no_digit|].
        simpl. apply negb_true_iff. unfold is_digit.
        apply orb_true_iff in Hx as [Hx|Hx]; apply N.eqb_eq in Hx; subst; reflexivity.
    - apply He'.
      + intros _. now apply follows_no_exp.
      + intros _. now apply follows_no_digit. }
  unfold scan_number.
  destruct t as [|c t].
  - cbn [scan_int]. discriminate.
  - destruct (c =? 45)%N eqn:Eminus.
    + destruct (scan_int t) as [[i t1]|] eqn:Hi; [|discriminate].
      destruct (scan_frac t1) as [f t2] eqn:Hf.
      destruct (scan_exp t2) as [e t3] eqn:He.
      intros H. injection H as <- <-.
      exists c, (i ++ f ++ e). 
      destruct (Hcore t i t1 f t2 e t3 [] Hi Hf He eq_refl) as [Et _].
      repeat split.
      * subst t. now rewrite <- !app_assoc.
      * now left.
      * now eexists _, _.
      * intros r' Hr'. rewrite Eminus.
        destruct (Hcore t i t1 f t2 e t3 r' Hi Hf He Hr') as [_ [_ [Hi' [Hf' He']]]].
        rewrite <- !app_assoc. rewrite Hi', Hf', He'. reflexivity.
    + destruct (scan_int (c :: t)) as [[i t1]|] eqn:Hi; [|discriminate].
      destruct (scan_frac t1) as [f t2] eqn:Hf.
      destruct (scan_exp t2) as [e t3] eqn:He.
      intros H. injection H as <- <-.
      destruct (Hcore (c :: t) i t1 f t2 e t3 [] Hi Hf He eq_refl)
        as [Et [[x [i' [-> Hx]]] _]].
      simpl in Et. injection Et as -> ->.
      exists x, (i' ++ f ++ e).
      repeat split.
      * now rewrite <- !app_assoc.
      * now right.
      * now eexists _, _.
      * intros r' Hr'. rewrite Eminus.
        destruct (Hcore _ _ _ _ _ _ _ r' Hi Hf He Hr') as [_ [_ [Hi' [Hf' He']]]].
        rewrite <- !app_assoc.
        change (x :: i' ++ f ++ e ++ r') with ((x :: i') ++ f ++ e ++ r').
        rewrite Hi', Hf', He'. reflexivity.
Qed.

(** ** Strings *)

Lemma push_some (x : N) (o : option (pystr * pystr)) (s r : pystr) :
  push x o = Some (s, r) -> exists s', s = x :: s' /\ o = Some (s', r).
Proof.
  destruct o as [[s0 r0]|]; simpl; [|discriminate].
  intros H. injection H as <- <-. now exists s0.
Qed.

Lemma low_pair_some (t : pystr) (u2 : N) (t12 : pystr) :
  low_pair t = Some (u2, t12) ->
  exists g1 g2 g3 g4,
    t = 92%N :: 117%N :: g1 :: g2 :: g3 :: g4 :: t12
    /\ hex4 g1 g2 g3 g4 = Some u2 /\ is_low_surrogate u2 = true.
Proof.
  destruct t as [|b [|u' [|g1 [|g2 [|g3 [|g4 t']]]]]]; cbn [low_pair]; try discriminate.
  destruct ((b =? 92) && (u' =? 117))%N eqn:E; [|discriminate].
  destruct (hex4 g1 g2 g3 g4) as [u|] eqn:Eh; [|discriminate].
  destruct (is_low_surrogate u) eqn:El; [|discriminate].
  intros H. injection H as <- <-.
  apply andb_true_iff in E as [Eb Eu].
  apply N.eqb_eq in Eb, Eu. subst. now exists g1, g2, g3, g4.
Qed.

(** [scanstring] at a four-digit escape. *)
Lemma scanstring_unicode (h1 h2 h3 h4 : N) (t6 : pystr) :
  scanstring (92%N :: 117%N :: h1 :: h2 :: h3 :: h4 :: t6)
  = match hex4 h1 h2 h3 h4 with
    | None => None
    | Some u =>
        if is_high_surrogate u then
          match low_pair t6 with
          | Some (u2, t12) => push (join_surrogates u u2) (scanstring t12)
          | None => push u (scanstring t6)
          end
        else push u (scanstring t6)
    end.
Proof.
  cbn [scanstring].
  change (92 =? 34)%N with false. change (92 =? 92)%N with true.
  change (117 =? 117)%N with true. cbv iota.
  destruct (hex4 h1 h2 h3 h4) as [u|]; [|reflexivity].
  destruct (is_high_surrogate u); [|reflexivity].
  destruct t6 as [|b [|u' [|g1 [|g2 [|g3 [|g4 t']]]]]]; try reflexivity.
  cbn [low_pair].
  destruct ((b =? 92) && (u' =? 117))%N eqn:E; [|reflexivity].
  destruct (hex4 g1 g2 g3 g4) as [u2|] eqn:Eh.
  - destruct (is_low_surrogate u2); reflexivity.
  - apply andb_true_iff in E as [Eb Eu].
    apply N.eqb_eq in Eb, Eu. subst.
    cbn [scanstring].
    change (92 =? 34)%N with false. change (92 =? 92)%N with true.
    change (117 =? 117)%N with true. cbv iota.
    rewrite Eh. reflexivity.
Qed.

Lemma low_pair_other_head (b : N) (y : pystr) :
  (b =? 92)%N = false -> low_pair (b :: y) = None.
Proof.
  intros H.
  destruct y as [|u' [|g1 [|g2 [|g3 [|g4 t']]]]]; cbn [low_pair]; try reflexivity.
  now rewrite H.
Qed.

Lemma low_pair_other_escape (b e : N) (y : pystr) :
  (e =? 117)%N = false -> low_pair (b :: e :: y) = None.
Proof.
  intros H.
  destruct y as [|g1 [|g2 [|g3 [|g4 t']]]]; cbn [low_pair]; try reflexivity.
  now rewrite H, andb_false_r.
Qed.

(** Whether a low surrogate follows does not depend on what comes after
    a string that scans. *)
Lemma low_pair_none_stable (c6 r r' : pystr) (res : pystr * pystr) :
  scanstring c6 = Some res ->
  low_pair (c6 ++ r) = None -> low_pair (c6 ++ r') = None.
Proof.
  intros Hscan.
  destruct c6 as [|b c6]; [discriminate|].
  destruct (b =? 92)%N eqn:Eb.
  2:{ intros _. cbn [app]. now apply low_pair_other_head. }
  apply N.eqb_eq in Eb. subst b.
  destruct c6 as [|e c6]; [discriminate|].
  destruct (e =? 117)%N eqn:Ee.
  2:{ intros _. cbn [app]. now apply low_pair_other_escape. }
  apply N.eqb_eq in Ee. subst e.
  destruct c6 as [|g1 [|g2 [|g3 [|g4 c12]]]]; try discriminate.
  cbn [app low_pair]. 
  destruct ((92 =? 92) && (117 =? 117))%N; [|reflexivity].
  destruct (hex4 g1 g2 g3 g4) as [u2|]; [|reflexivity].
  destruct (is_low_surrogate u2); [discriminate|reflexivity].
Qed.

Lemma scanstring_stable_upto (n : nat) :
  forall t s r, length t <= n -> scanstring t = Some (s, r) ->
  exists c, t = c ++ r /\ forall r', scanstring (c ++ r') = Some (s, r').
Proof.
  induction n as [|n IH]; intros t s r Hlen H.
  - destruct t; [discriminate|simpl in Hlen; lia].
  - destruct t as [|c t1]; [discriminate|].
    simpl in Hlen.
    destruct (c =? 34)%N eqn:E34.
    { cbn [scanstring] in H. rewrite E34 in H. injection H as <- <-.
      exists [c]. split; [reflexivity|]. intros r'. cbn [app scanstring].
      now rewrite E34. }
    destruct (c =? 92)%N eqn:E92.
    + destruct t1 as [|e t2]; [cbn [scanstring] in H; rewrite E34, E92 in H; discriminate|].
      destruct (e =? 117)%N eqn:E117.
      * apply N.eqb_eq in E92, E117. subst c e.
        destruct t2 as [|h1 [|h2 [|h3 [|h4 t6]]]];
          try (cbn [scanstring] in H; discriminate).
        rewrite scanstring_unicode in H.
        destruct (hex4 h1 h2 h3 h4) as [u|] eqn:Eh; [|discriminate].
        simpl in Hlen.
        assert (Hplain : forall s0, push u (scanstring t6) = Some (s0, r) ->
                 low_pair t6 = None \/ is_high_surrogate u = false ->
                 exists c, 92%N :: 117%N :: h1 :: h2 :: h3 :: h4 :: t6 = c ++ r /\
                   forall r', scanstring (c ++ r') = Some (s0, r')).
        { intros s0 Hp Hwhy.
          apply push_some in Hp as [s' [-> Hs]].
          destruct (IH t6 s' r ltac:(lia) Hs) as [c6 [-> Hc6]].
          exists (92%N :: 117%N :: h1 :: h2 :: h3 :: h4 :: c6).
          split; [reflexivity|]. intros r'.
          cbn [app]. rewrite scanstring_unicode, Eh.
          destruct (is_high_surrogate u) eqn:Ehi.
          - destruct Hwhy as [Hnone|Hno]; [|discriminate].
            pose proof (Hc6 []) as Hc0. rewrite app_nil_r in Hc0.
            rewrite (low_pair_none_stable c6 r r' _ Hc0 Hnone).
            now rewrite Hc6.
          - now rewrite Hc6. }
        destruct (is_high_surrogate u) eqn:Ehi; [|apply Hplain; auto].
        destruct (low_pair t6) as [[u2 t12]|] eqn:Elow; [|apply Hplain; auto].
        apply low_pair_some in Elow as (g1 & g2 & g3 & g4 & -> & Eh2 & Elo).
        apply push_some in H as [s' [-> Hs]].
        simpl in Hlen.
        destruct (IH t12 s' r ltac:(lia) Hs) as [c12 [-> Hc12]].
        exists (92%N :: 117%N :: h1 :: h2 :: h3 :: h4
                  :: 92%N :: 117%N :: g1 :: g2 :: g3 :: g4 :: c12).
        split; [reflexivity|]. intros r'.
        cbn [app]. rewrite scanstring_unicode, Eh, Ehi.
        cbn [low_pair]. change ((92 =? 92) && (117 =? 117))%N with true. cbv iota.
        rewrite Eh2, Elo. now rewrite Hc12.
      * cbn [scanstring] in H. rewrite E34, E92, E117 in H.
        destruct (simple_escape e) as [x|] eqn:Ese; [|discriminate].
        apply push_some in H as [s' [-> Hs]].
        simpl in Hlen.
        destruct (IH t2 s' r ltac:(lia) Hs) as [c2 [-> Hc2]].
        exists (c :: e :: c2). split; [reflexivity|]. intros r'.
        cbn [app scanstring]. rewrite E34, E92, E117, Ese. now rewrite Hc2.
    + cbn [scanstring] in H. rewrite E34, E92 in H.
      destruct (c <? 32)%N eqn:Ectl; [discriminate|].
      apply push_some in H as [s' [-> Hs]].
      destruct (IH t1 s' r ltac:(lia) Hs) as [c1 [-> Hc1]].
      exists (c :: c1). split; [reflexivity|]. intros r'.
      cbn [app scanstring]. rewrite E34, E92, Ectl. now rewrite Hc1.
Qed.

Lemma scanstring_stable (t s r : pystr) :
  scanstring t = Some (s, r) ->
  exists c, t = c ++ r /\ forall r', scanstring (c ++ r') = Some (s, r').
Proof. apply (scanstring_stable_upto (length t)). lia. Qed.

(** ** Literals and numbers where a value is expected *)

Lemma startswith_split (p t : pystr) :
  startswith p t = true -> t = p ++ skipn (length p) t.
Proof.
  revert t; induction p as [|x p IH]; intros t; simpl; [reflexivity|].
  destruct t as [|y t]; [discriminate|].
  intros H. apply andb_true_iff in H as [Hxy Hp].
  apply N.eqb_eq in Hxy. subst y. f_equal. now apply IH.
Qed.

Lemma number_start_not_letter (x : N) (s : pystr) :
  (x =? 45)%N = true \/ is_digit x = true ->
  startswith (lit "null") (x :: s) = false
  /\ startswith (lit "true") (x :: s) = false
  /\ startswith (lit "false") (x :: s) = false.
Proof.
  intros Hx.
  assert (Hsmall : (x <= 57)%N).
  { destruct Hx as [Hx|Hx].
    - apply N.eqb_eq in Hx. lia.
    - unfold is_digit in Hx. apply andb_true_iff in Hx as [_ Hx].
      now apply N.leb_le in Hx. }
  cbn [lit list_ascii_of_string map startswith].
  repeat split.
  - replace (N_of_ascii "n" =? x)%N with false; [reflexivity|].
    symmetry. apply N.eqb_neq. change (N_of_ascii "n") with 110%N. lia.
  - replace (N_of_ascii "t" =? x)%N with false; [reflexivity|].
    symmetry. apply N.eqb_neq. change (N_of_ascii "t") with 116%N. lia.
  - replace (N_of_ascii "f" =? x)%N with false; [reflexivity|].
    symmetry. apply N.eqb_neq. change (N_of_ascii "f") with 102%N. lia.
Qed.

Lemma scan_atom_stable (t : pystr) (v : json) (r : pystr) :
  scan_atom t = Some (v, r) ->
  exists x c,
    t = x :: c ++ r /\ is_atom v
    /\ forall r', follow_ok v r' -> scan_atom (x :: c ++ r') = Some (v, r').
Proof.
  unfold scan_atom.
  destruct (startswith (lit "null") t) eqn:E1.
  { intros H. injection H as <- <-. apply startswith_split in E1.
    exists 110%N, [117; 108; 108]%N. repeat split. exact E1. }
  destruct (startswith (lit "true") t) eqn:E2.
  { intros H. injection H as <- <-. apply startswith_split in E2.
    exists 116%N, [114; 117; 101]%N. repeat split. exact E2. }
  destruct (startswith (lit "false") t) eqn:E3.
  { intros H. injection H as <- <-. apply startswith_split in E3.
    exists 102%N, [97; 108; 115; 101]%N. repeat split. exact E3. }
  destruct (scan_number t) as [[v0 r0]|] eqn:En.
  { intros H. injection H as <- <-.
    destruct (scan_number_stable _ _ _ En) as (x & c & Et & Hx & (b & lex & Hv) & Hst).
    exists x, c. subst v0. repeat split; [exact Et|].
    intros r' Hr'. simpl in Hr'.
    destruct (number_start_not_letter x (c ++ r') Hx) as [N1 [N2 N3]].
    rewrite N1, N2, N3. now rewrite (Hst r' Hr'). }
  destruct (startswith (lit "NaN") t) eqn:E4.
  { intros H. injection H as <- <-. apply startswith_split in E4.
    exists 78%N, [97; 78]%N. repeat split. exact E4. }
  destruct (startswith (lit "Infinity") t) eqn:E5.
  { intros H. injection H as <- <-. apply startswith_split in E5.
    exists 73%N, [110; 102; 105; 110; 105; 116; 121]%N. repeat split. exact E5. }
  destruct (startswith (lit "-Infinity") t) eqn:E6; [|discriminate].
  intros H. injection H as <- <-. apply startswith_split in E6.
  exists 45%N, [73; 110; 102; 105; 110; 105; 116; 121]%N. repeat split. exact E6.
Qed.

(** ** Values: what [scan_once] reads does not depend on what follows *)

Lemma skip_ws_to (t : pystr) (x : N) (r : pystr) :
  skip_ws t = x :: r ->
  exists w, t = w ++ x :: r /\ ws_only w /\ is_json_ws x = false
            /\ forall r', skip_ws (w ++ x :: r') = x :: r'.
Proof.
  intros H. destruct (skip_ws_split t) as [w [Ht Hw]]. rewrite H in Ht.
  pose proof (skip_ws_head _ _ _ H) as Hx.
  exists w. repeat split; auto.
  intros r'. rewrite (skip_ws_app w _ Hw). now apply skip_ws_stop.
Qed.

Lemma follows_after_ws (w : pystr) (x : N) (r : pystr) :
  ws_only w -> num_cont x = false -> follows (w ++ x :: r) = true.
Proof.
  intros Hw Hx. destruct Hw as [|y w Hy _]; simpl.
  - now rewrite Hx.
  - now rewrite (json_ws_not_num_cont y Hy).
Qed.

Lemma follow_ok_after_ws (v : json) (w : pystr) (x : N) (r : pystr) :
  ws_only w -> num_cont x = false -> follow_ok v (w ++ x :: r).
Proof.
  intros Hw Hx. destruct v; simpl; auto using follows_after_ws.
Qed.

Ltac count_lia H :=
  repeat (first [rewrite length_app in H | progress (cbn [length] in H)]);
  cbn [length]; lia.

Ltac flatten_app := repeat (first [rewrite <- app_assoc | progress (cbn [app])]).

Lemma once_step (f : nat) :
  members_stable f -> items_stable f -> once_stable (S f).
Proof.
  intros IHm IHi t v r H.
  destruct t as [|c t']; [discriminate|].
  cbn [scan_once] in H.
  destruct (c =? 34)%N eqn:E34.
  { destruct (scanstring t') as [[s r0]|] eqn:Es; [|discriminate].
    injection H as <- <-.
    destruct (scanstring_stable _ _ _ Es) as [cs [-> Hcs]].
    exists c, cs. repeat split; try discriminate.
    intros fuel' r' Hfuel _. destruct fuel' as [|f']; [simpl in Hfuel; lia|].
    cbn [scan_once]. now rewrite E34, Hcs. }
  destruct (c =? 123)%N eqn:E123.
  { apply N.eqb_eq in E123. subst c.
    destruct (skip_ws t') as [|c1 r1] eqn:Ews; [discriminate|].
    destruct (skip_ws_to _ _ _ Ews) as (w & -> & Hw & Hc1 & Hskip).
    destruct (c1 =? 125)%N eqn:E125.
    - injection H as <- <-. apply N.eqb_eq in E125. subst c1.
      exists 123%N, (w ++ [125%N]). repeat split.
      + now flatten_app.
      + now exists w.
      + intros fuel' r' Hfuel _. destruct fuel' as [|f']; [simpl in Hfuel; lia|].
        flatten_app. cbn [scan_once]. 
        change (123 =? 34)%N with false. change (123 =? 123)%N with true. cbv iota.
        rewrite Hskip. change (125 =? 125)%N with true. reflexivity.
    - destruct (scan_members f (c1 :: r1) []) as [[d0 r0]|] eqn:Em; [|discriminate].
      injection H as <- <-.
      destruct (IHm _ _ _ _ Em) as (cm & Ecm & Hcm).
      exists 123%N, (w ++ cm ++ [125%N]). repeat split.
      + flatten_app. now rewrite Ecm.
      + exists (w ++ cm). now flatten_app.
      + intros fuel' r' Hfuel _. destruct fuel' as [|f']; [simpl in Hfuel; lia|].
        flatten_app. cbn [scan_once].
        change (123 =? 34)%N with false. change (123 =? 123)%N with true. cbv iota.
        destruct cm as [|y cm'].
        { cbn [app] in Ecm. injection Ecm as -> _. discriminate. }
        cbn [app] in Ecm. injection Ecm as <- _.
        cbn [app]. rewrite Hskip, E125.
        change (c1 :: cm' ++ 125%N :: r') with ((c1 :: cm') ++ 125%N :: r').
        rewrite Hcm; [reflexivity|].
        count_lia Hfuel. }
  destruct (c =? 91)%N eqn:E91.
  { apply N.eqb_eq in E91. subst c.
    destruct (skip_ws t') as [|c1 r1] eqn:Ews; [discriminate|].
    destruct (skip_ws_to _ _ _ Ews) as (w & -> & Hw & Hc1 & Hskip).
    destruct (c1 =? 93)%N eqn:E93.
    - injection H as <- <-. apply N.eqb_eq in E93. subst c1.
      exists 91%N, (w ++ [93%N]). repeat split; try discriminate.
      + now flatten_app.
      + intros fuel' r' Hfuel _. destruct fuel' as [|f']; [simpl in Hfuel; lia|].
        flatten_app. cbn [scan_once].
        change (91 =? 34)%N with false. change (91 =? 123)%N with false.
        change (91 =? 91)%N with true. cbv iota.
        rewrite Hskip. change (93 =? 93)%N with true. reflexivity.
    - destruct (scan_items f (c1 :: r1)) as [[l0 r0]|] eqn:Ei; [|discriminate].
      injection H as <- <-.
      destruct (IHi _ _ _ Ei) as (ci & Eci & Hci).
      exists 91%N, (w ++ ci ++ [93%N]). repeat split; try discriminate.
      + flatten_app. now rewrite Eci.
      + intros fuel' r' Hfuel _. destruct fuel' as [|f']; [simpl in Hfuel; lia|].
        flatten_app. cbn [scan_once].
        change (91 =? 34)%N with false. change (91 =? 123)%N with false.
        change (91 =? 91)%N with true. cbv iota.
        destruct ci as [|y ci'].
        { cbn [app] in Eci. injection Eci as -> _. discriminate. }
        cbn [app] in Eci. injection Eci as <- _.
        cbn [app]. rewrite Hskip, E93.
        change (c1 :: ci' ++ 93%N :: r') with ((c1 :: ci') ++ 93%N :: r').
        rewrite Hci; [reflexivity|].
        count_lia Hfuel. }
  destruct (scan_atom_stable _ _ _ H) as (x & ca & Et & Hat & Hst).
  injection Et as <- ->.
  exists c, ca. split; [reflexivity|]. split.
  - intros d ->. destruct Hat.
  - intros fuel' r' Hfuel Hr'. destruct fuel' as [|f']; [simpl in Hfuel; lia|].
    cbn [scan_once]. rewrite E34, E123, E91.
    destruct Hr' as [->|Hr']; [exact H|now apply Hst].
Qed.

Lemma skip_ws_keeps (t c : pystr) (x : N) (r r' : pystr) :
  skip_ws t = c ++ x :: r -> is_json_ws x = false ->
  skip_ws (c ++ x :: r') = c ++ x :: r'.
Proof.
  intros H Hx. destruct c as [|y c]; cbn [app] in *.
  - now apply skip_ws_stop.
  - apply skip_ws_stop. now apply skip_ws_head in H.
Qed.

Lemma members_step (f : nat) :
  once_stable f -> members_stable f -> members_stable (S f).
Proof.
  intros IHo IHm t d d' r H.
  destruct t as [|c t1]; [discriminate|].
  cbn [scan_members] in H.
  destruct (c =? 34)%N eqn:E34; [|discriminate].
  destruct (scanstring t1) as [[k t2]|] eqn:Ek; [|discriminate].
  destruct (scanstring_stable _ _ _ Ek) as [ck [-> Hck]].
  destruct (skip_ws t2) as [|c2 t3] eqn:Ew1; [discriminate|].
  destruct (skip_ws_to _ _ _ Ew1) as (w1 & -> & Hw1 & Hc2 & Hskip1).
  destruct (c2 =? 58)%N eqn:E58; [|discriminate].
  destruct (scan_once f (skip_ws t3)) as [[v t4]|] eqn:Ev; [|discriminate].
  destruct (IHo _ _ _ Ev) as (x & cv & Etv & _ & Hcv).
  destruct (skip_ws_to _ _ _ Etv) as (w2 & -> & Hw2 & Hx & Hskip2).
  destruct (skip_ws t4) as [|c5 t5] eqn:Ew3; [discriminate|].
  destruct (skip_ws_to _ _ _ Ew3) as (w3 & -> & Hw3 & Hc5 & Hskip3).
  destruct (c5 =? 125)%N eqn:E125.
  - injection H as <- <-. apply N.eqb_eq in E125. subst c5.
    exists (c :: ck ++ w1 ++ c2 :: w2 ++ x :: cv ++ w3).
    split; [now flatten_app|].
    intros fuel' r' Hfuel. destruct fuel' as [|f']; [lia|].
    flatten_app. cbn [scan_members].
    rewrite E34, Hck, Hskip1, E58, Hskip2.
    rewrite Hcv.
    + rewrite Hskip3. change (125 =? 125)%N with true. reflexivity.
    + count_lia Hfuel.
    + right. now apply follow_ok_after_ws.
  - destruct (c5 =? 44)%N eqn:E44; [|discriminate].
    destruct (IHm _ _ _ _ H) as (cm & Ecm & Hcm).
    destruct (skip_ws_split t5) as [w4 [Et5 Hw4]].
    exists (c :: ck ++ w1 ++ c2 :: w2 ++ x :: cv ++ w3 ++ c5 :: w4 ++ cm).
    split.
    + flatten_app. rewrite <- Ecm, <- Et5. reflexivity.
    + intros fuel' r' Hfuel. destruct fuel' as [|f']; [lia|].
      flatten_app. cbn [scan_members].
      rewrite E34, Hck, Hskip1, E58, Hskip2.
      rewrite Hcv.
      * rewrite Hskip3, E125, E44.
        rewrite (skip_ws_app w4 _ Hw4).
        rewrite (skip_ws_keeps _ _ _ _ r' Ecm eq_refl).
        apply Hcm. count_lia Hfuel.
      * count_lia Hfuel.
      * right. apply follow_ok_after_ws; [exact Hw3|].
        apply N.eqb_eq in E44. now subst c5.
Qed.

Lemma items_step (f : nat) :
  once_stable f -> items_stable f -> items_stable (S f).
Proof.
  intros IHo IHi t l r H.
  cbn [scan_items] in H.
  destruct (scan_once f t) as [[v t1]|] eqn:Ev; [|discriminate].
  destruct (IHo _ _ _ Ev) as (x & cv & -> & _ & Hcv).
  destruct (skip_ws t1) as [|c t2] eqn:Ew; [discriminate|].
  destruct (skip_ws_to _ _ _ Ew) as (w & -> & Hw & Hc & Hskip).
  destruct (c =? 93)%N eqn:E93.
  - injection H as <- <-. apply N.eqb_eq in E93. subst c.
    exists (x :: cv ++ w). split; [now flatten_app|].
    intros fuel' r' Hfuel. destruct fuel' as [|f']; [lia|].
    flatten_app. cbn [scan_items].
    rewrite Hcv.
    + rewrite Hskip. change (93 =? 93)%N with true. reflexivity.
    + count_lia Hfuel.
    + right. now apply follow_ok_after_ws.
  - destruct (c =? 44)%N eqn:E44; [|discriminate].
    destruct (scan_items f (skip_ws t2)) as [[l0 r0]|] eqn:Ei; [|discriminate].
    injection H as <- <-.
    destruct (IHi _ _ _ Ei) as (ci & Eci & Hci).
    destruct (skip_ws_split t2) as [w2 [Et2 Hw2]].
    exists (x :: cv ++ w ++ c :: w2 ++ ci). split.
    + flatten_app. rewrite <- Eci, <- Et2. reflexivity.
    + intros fuel' r' Hfuel. destruct fuel' as [|f']; [lia|].
      flatten_app. cbn [scan_items].
      rewrite Hcv.
      * rewrite Hskip, E93, E44.
        rewrite (skip_ws_app w2 _ Hw2).
        rewrite (skip_ws_keeps _ _ _ _ r' Eci eq_refl).
        rewrite Hci; [reflexivity|]. count_lia Hfuel.
      * count_lia Hfuel.
      * right. apply follow_ok_after_ws; [exact Hw|].
        apply N.eqb_eq in E44. now subst c.
Qed.

Lemma scan_stable (fuel : nat) :
  once_stable fuel /\ members_stable fuel /\ items_stable fuel.
Proof.
  induction fuel as [|f [IHo [IHm IHi]]].
  - repeat split; intro; intros; discriminate.
  - split; [|split].
    + now apply once_step.
    + now apply members_step.
    + now apply items_step.
Qed.

(** ** The text of a JSON object *)

Lemma ws_only_spaces (w : pystr) : ws_only w -> spaces w.
Proof.
  intros H. eapply Forall_impl; [|exact H]. apply json_ws_isspace.
Qed.

Lemma spaces_app (u v : pystr) : spaces u -> spaces v -> spaces (u ++ v).
Proof. intros Hu Hv. apply Forall_app. now split. Qed.

Lemma lstrip_spaces (w : pystr) (x : N) (s : pystr) :
  spaces w -> isspace x = false -> lstrip (w ++ x :: s) = x :: s.
Proof.
  intros Hw Hx. induction Hw as [|y w Hy _ IH]; cbn [app lstrip].
  - now rewrite Hx.
  - now rewrite Hy.
Qed.

Lemma strip_core (l r m : pystr) (x y : N) :
  spaces l -> spaces r -> isspace x = false -> isspace y = false ->
  strip (l ++ x :: m ++ y :: r) = x :: m ++ [y].
Proof.
  intros Hl Hr Hx Hy. unfold strip, rstrip.
  rewrite (lstrip_spaces l x _ Hl Hx).
  change (x :: m ++ y :: r) with ((x :: m) ++ y :: r).
  rewrite rev_app_distr. cbn [rev]. rewrite <- app_assoc. cbn [app].
  rewrite lstrip_spaces; [|now apply Forall_rev|exact Hy].
  change (y :: rev m ++ [x]) with ([y] ++ rev (x :: m)).
  rewrite rev_app_distr, rev_involutive. reflexivity.
Qed.

(** The fuel of [scan_once] only has to cover the text: a value read
    with some fuel is read with every fuel that is at least the length
    of the text. *)
Lemma scan_once_fuel_enough (fuel : nat) (t : pystr) (v : json) (r : pystr) :
  scan_once fuel t = Some (v, r) ->
  forall fuel', length t <= fuel' -> scan_once fuel' t = Some (v, r).
Proof.
  intros H fuel' Hfuel.
  destruct (scan_stable fuel) as [Ho _].
  destruct (Ho _ _ _ H) as (x & c & -> & _ & Hst).
  apply Hst; [|now left].
  change (x :: c ++ r) with ((x :: c) ++ r) in Hfuel.
  rewrite length_app in Hfuel. lia.
Qed.

(** So [json.loads] gives the value [scan_once] reads with any fuel. *)
Lemma json_loads_any_fuel (fuel : nat) (text : pystr) (v : json) (rest : pystr) :
  scan_once fuel (skip_ws text) = Some (v, rest) -> skip_ws rest = [] ->
  json_loads text = Some v.
Proof.
  intros H Hrest. unfold json_loads.
  rewrite (scan_once_fuel_enough _ _ _ _ H), Hrest; [reflexivity|].
  destruct (skip_ws_split text) as [w [Ht _]].
  rewrite Ht at 2. rewrite length_app. lia.
Qed.

(** A text that [json.loads] decodes to an object is an object text
    between JSON whitespace, and the object text alone decodes to the
    same object. *)
Lemma json_object_text (text : pystr) (d : list (pystr * json)) :
  json_loads text = Some (JObject d) ->
  exists w c0 rest,
    text = w ++ 123%N :: c0 ++ 125%N :: rest
    /\ ws_only w /\ ws_only rest
    /\ json_loads (123%N :: c0 ++ [125%N]) = Some (JObject d).
Proof.
  unfold json_loads.
  destruct (scan_once (S (length text)) (skip_ws text)) as [[v rest]|] eqn:Es;
    [|discriminate].
  destruct (skip_ws rest) as [|? ?] eqn:Er; [|discriminate].
  intros H. injection H as ->.
  destruct (scan_stable (S (length text))) as [Ho _].
  destruct (Ho _ _ _ Es) as (x & c & Et & Hframe & Hst).
  destruct (Hframe d eq_refl) as [-> [c0 ->]].
  destruct (skip_ws_to _ _ _ Et) as (w & -> & Hw & _ & _).
  exists w, c0, rest. repeat split; auto.
  - now rewrite <- app_assoc.
  - now apply skip_ws_nil.
  - change (skip_ws (123 :: c0 ++ [125]))%N with (123%N :: c0 ++ [125%N]).
    specialize (Hst (S (length (123%N :: c0 ++ [125%N]))) [] ltac:(lia) (or_intror I)).
    rewrite app_nil_r in Hst. rewrite Hst. reflexivity.
Qed.

(** ** [str.replace] around the fences *)

Lemma startswith_app_notin (old s : pystr) (x : N) (t : pystr) :
  ~ In x old -> startswith old (s ++ x :: t) = startswith old s.
Proof.
  revert s; induction old as [|o old IH]; intros s Hx; [reflexivity|].
  destruct s as [|y s]; cbn [app startswith].
  - replace (o =? x)%N with false; [reflexivity|].
    symmetry. apply N.eqb_neq. intros ->. apply Hx. now left.
  - rewrite IH; [reflexivity|]. intros Hin. apply Hx. now right.
Qed.

Lemma startswith_length (old s : pystr) :
  startswith old s = true -> length old <= length s.
Proof.
  revert s; induction old as [|o old IH]; intros s; cbn [startswith length]; [lia|].
  destruct s as [|y s]; [discriminate|].
  intros H. apply andb_true_iff in H as [_ H]. apply IH in H. cbn [length]. lia.
Qed.

(** A code point that does not occur in [old] separates the matches. *)
Lemma replace_from_cross (old new : pystr) (x : N) (t : pystr) :
  old <> [] -> ~ In x old ->
  forall s k, k <= length s ->
    replace_from old new k (s ++ x :: t)
    = replace_from old new k s ++ x :: replace_from old new 0 t.
Proof.
  intros Hold Hx. induction s as [|y s IH]; intros k Hk.
  - cbn [length] in Hk. assert (k = 0) as -> by lia.
    cbn [app replace_from].
    replace (startswith old (x :: t)) with false; [reflexivity|].
    symmetry. destruct old as [|o old]; [contradiction|]. cbn [startswith].
    replace (o =? x)%N with false; [reflexivity|].
    symmetry. apply N.eqb_neq. intros ->. apply Hx. now left.
  - cbn [length] in Hk. destruct k as [|k]; cbn [app replace_from].
    + change (y :: s ++ x :: t) with ((y :: s) ++ x :: t).
      rewrite (startswith_app_notin old (y :: s) x t Hx).
      destruct (startswith old (y :: s)) eqn:Est.
      * apply startswith_length in Est. cbn [length] in Est.
        rewrite IH by lia. now rewrite app_assoc.
      * rewrite IH by lia. reflexivity.
    + apply IH. lia.
Qed.

Lemma replace_from_pass (o : N) (old new a s : pystr) :
  Forall (fun y => y <> o) a ->
  replace_from (o :: old) new 0 (a ++ s) = a ++ replace_from (o :: old) new 0 s.
Proof.
  induction 1 as [|y a Hy _ IH]; [reflexivity|].
  cbn [app replace_from startswith].
  replace (o =? y)%N with false; [now rewrite IH|].
  symmetry. apply N.eqb_neq. congruence.
Qed.

Lemma replace_from_skip (old new p s : pystr) :
  replace_from old new (length p) (p ++ s) = replace_from old new 0 s.
Proof.
  induction p as [|y p IH]; [reflexivity|]. exact IH.
Qed.

Lemma startswith_self (p s : pystr) : startswith p (p ++ s) = true.
Proof.
  induction p as [|y p IH]; [reflexivity|].
  cbn [app startswith]. now rewrite N.eqb_refl.
Qed.

Lemma replace_from_match (o : N) (old new s : pystr) :
  replace_from (o :: old) new 0 ((o :: old) ++ s)
  = new ++ replace_from (o :: old) new 0 s.
Proof.
  cbn [app replace_from].
  change (o :: old ++ s) with ((o :: old) ++ s). rewrite startswith_self.
  cbn [length Nat.pred]. now rewrite replace_from_skip.
Qed.

Lemma contains_false_replace (o : N) (old new s : pystr) :
  contains (o :: old) s = false -> replace_from (o :: old) new 0 s = s.
Proof.
  induction s as [|y s IH]; [reflexivity|].
  cbn [contains]. intros H. apply orb_false_iff in H as [Hst Hc].
  cbn [replace_from]. rewrite Hst. now rewrite IH.
Qed.

Lemma startswith_prefix (p q s : pystr) :
  startswith (p ++ q) s = true -> startswith p s = true.
Proof.
  revert s; induction p as [|y p IH]; intros s; [reflexivity|].
  cbn [app startswith]. destruct s as [|z s]; [discriminate|].
  intros H. apply andb_true_iff in H as [H1 H2].
  rewrite H1. now apply IH.
Qed.

Lemma contains_prefix (p q s : pystr) :
  contains p s = false -> contains (p ++ q) s = false.
Proof.
  induction s as [|y s IH]; cbn [contains]; intros H;
    apply orb_false_iff in H as [Hst Hc].
  - rewrite orb_false_r in *.
    destruct (startswith (p ++ q) []) eqn:E; [|reflexivity].
    apply startswith_prefix in E. congruence.
  - rewrite (IH Hc), orb_false_r.
    destruct (startswith (p ++ q) (y :: s)) eqn:E; [|reflexivity].
    apply startswith_prefix in E. congruence.
Qed.

(** ** Cleaning a response *)

Lemma space_not_backtick (y : N) : isspace y = true -> y <> 96%N.
Proof. intros H ->. vm_compute in H. discriminate. Qed.

Lemma space_not_j (y : N) : isspace y = true -> y <> 106%N.
Proof. intros H ->. vm_compute in H. discriminate. Qed.

Lemma spaces_no_backtick (a : pystr) : spaces a -> Forall (fun y => y <> 96%N) a.
Proof. intros H. eapply Forall_impl; [|exact H]. apply space_not_backtick. Qed.

Lemma drop_json_pass (a s : pystr) :
  Forall (fun y => y <> 96%N) a ->
  drop_json_fences (a ++ s) = a ++ drop_json_fences s.
Proof. apply replace_from_pass. Qed.

Lemma drop_pass (a s : pystr) :
  Forall (fun y => y <> 96%N) a ->
  drop_fences (a ++ s) = a ++ drop_fences s.
Proof. apply replace_from_pass. Qed.

Lemma drop_json_cons (x : N) (s : pystr) :
  x <> 96%N -> drop_json_fences (x :: s) = x :: drop_json_fences s.
Proof. intros H. apply (drop_json_pass [x] s). now repeat constructor. Qed.

Lemma drop_cons (x : N) (s : pystr) :
  x <> 96%N -> drop_fences (x :: s) = x :: drop_fences s.
Proof. intros H. apply (drop_pass [x] s). now repeat constructor. Qed.

Lemma drop_json_spaces (a : pystr) : spaces a -> drop_json_fences a = a.
Proof.
  intros H. rewrite <- (app_nil_r a) at 1.
  rewrite drop_json_pass by now apply spaces_no_backtick.
  apply app_nil_r.
Qed.

Lemma drop_spaces (a : pystr) : spaces a -> drop_fences a = a.
Proof.
  intros H. rewrite <- (app_nil_r a) at 1.
  rewrite drop_pass by now apply spaces_no_backtick.
  apply app_nil_r.
Qed.

Lemma drop_json_cross (c0 t : pystr) :
  drop_json_fences (c0 ++ 125%N :: t)
  = drop_json_fences c0 ++ 125%N :: drop_json_fences t.
Proof.
  apply replace_from_cross; [discriminate| |lia].
  intros H. vm_compute in H. repeat destruct H as [H|H]; try discriminate H; exact H.
Qed.

Lemma drop_cross (c0 t : pystr) :
  drop_fences (c0 ++ 125%N :: t) = drop_fences c0 ++ 125%N :: drop_fences t.
Proof.
  apply replace_from_cross; [discriminate| |lia].
  intros H. vm_compute in H. repeat destruct H as [H|H]; try discriminate H; exact H.
Qed.

Lemma drop_json_at_fence_json (s : pystr) :
  drop_json_fences (UnifiedLLMClient.fence_json ++ s) = drop_json_fences s.
Proof. apply (replace_from_match 96%N _ [] s). Qed.

Lemma drop_at_fence (s : pystr) :
  drop_fences (UnifiedLLMClient.fence ++ s) = drop_fences s.
Proof. apply (replace_from_match 96%N _ [] s). Qed.

(** A bare fence is kept by the first [replace] when the text goes on
    with neither a backtick nor the letter j. *)
Lemma drop_json_at_fence (s : pystr) :
  match s with [] => True | y :: _ => y <> 96%N /\ y <> 106%N end ->
  drop_json_fences (UnifiedLLMClient.fence ++ s)
  = UnifiedLLMClient.fence ++ drop_json_fences s.
Proof.
  destruct s as [|y s]; [reflexivity|]. intros [H1 H2].
  apply N.eqb_neq in H1, H2.
  unfold drop_json_fences.
  change (replace UnifiedLLMClient.fence_json [])
    with (replace_from [96; 96; 96; 106; 115; 111; 110]%N [] 0).
  change UnifiedLLMClient.fence with [96; 96; 96]%N.
  cbn [app replace_from startswith].
  rewrite (N.eqb_sym 96 y), (N.eqb_sym 106 y), H1, H2.
  rewrite !andb_false_r. cbn [andb]. reflexivity.
Qed.

Lemma clean_text_object (w c0 rest : pystr) :
  spaces w -> spaces rest ->
  UnifiedLLMClient.clean_text (w ++ 123%N :: c0 ++ 125%N :: rest)
  = 123%N :: unfenced c0 ++ [125%N].
Proof.
  intros Hw Hrest. unfold UnifiedLLMClient.clean_text.
  change (strip (drop_fences (drop_json_fences (w ++ 123%N :: c0 ++ 125%N :: rest)))
          = 123%N :: unfenced c0 ++ [125%N]).
  rewrite drop_json_pass by now apply spaces_no_backtick.
  rewrite drop_json_cons by discriminate.
  rewrite drop_json_cross, (drop_json_spaces rest Hrest).
  rewrite drop_pass by now apply spaces_no_backtick.
  cbn [app].
  rewrite drop_cons by discriminate.
  rewrite drop_cross, (drop_spaces rest Hrest).
  cbn [app]. now apply strip_core.
Qed.

Lemma clean_text_fenced (a opening b c0 c e : pystr) :
  spaces a -> spaces b -> spaces c -> spaces e ->
  opening = UnifiedLLMClient.fence \/ opening = UnifiedLLMClient.fence_json ->
  UnifiedLLMClient.clean_text
    (a ++ opening ++ b ++ 123%N :: c0 ++ 125%N :: c ++ UnifiedLLMClient.fence ++ e)
  = 123%N :: unfenced c0 ++ [125%N].
Proof.
  intros Ha Hb Hc He Hopen. unfold UnifiedLLMClient.clean_text.
  change (strip (drop_fences (drop_json_fences
            (a ++ opening ++ b ++ 123%N :: c0 ++ 125%N :: c
               ++ UnifiedLLMClient.fence ++ e)))
          = 123%N :: unfenced c0 ++ [125%N]).
  assert (Htail : drop_fences (drop_json_fences (c ++ UnifiedLLMClient.fence ++ e))
                  = c ++ e).
  { rewrite drop_json_pass by now apply spaces_no_backtick.
    rewrite drop_json_at_fence.
    - rewrite (drop_json_spaces e He).
      rewrite drop_pass by now apply spaces_no_backtick.
      now rewrite drop_at_fence, (drop_spaces e He).
    - destruct He as [|y e Hy _]; [exact I|].
      split; [now apply space_not_backtick|now apply space_not_j]. }
  assert (Hbody : forall rest,
            drop_json_fences (b ++ 123%N :: c0 ++ 125%N :: rest)
            = b ++ 123%N :: drop_json_fences c0 ++ 125%N :: drop_json_fences rest).
  { intros rest. rewrite drop_json_pass by now apply spaces_no_backtick.
    rewrite drop_json_cons by discriminate.
    now rewrite drop_json_cross. }
  assert (Hbody2 : forall mid rest,
            drop_fences (b ++ 123%N :: mid ++ 125%N :: rest)
            = b ++ 123%N :: drop_fences mid ++ 125%N :: drop_fences rest).
  { intros mid rest. rewrite drop_pass by now apply spaces_no_backtick.
    rewrite drop_cons by discriminate.
    now rewrite drop_cross. }
  rewrite drop_json_pass by now apply spaces_no_backtick.
  destruct Hopen as [->| ->].
  - rewrite drop_json_at_fence.
    + rewrite Hbody.
      rewrite drop_pass by now apply spaces_no_backtick.
      rewrite drop_at_fence, Hbody2, Htail.
      rewrite app_assoc.
      apply strip_core; auto using spaces_app.
    + destruct Hb as [|y b Hy _]; cbn [app].
      * split; discriminate.
      * split; [now apply space_not_backtick|now apply space_not_j].
  - rewrite drop_json_at_fence_json, Hbody.
    rewrite drop_pass by now apply spaces_no_backtick.
    rewrite Hbody2, Htail.
    rewrite app_assoc.
    apply strip_core; auto using spaces_app.
Qed.

(* ===================================================================== *)
(** * The dispatcher: [_parse_and_validate] *)
(* ===================================================================== *)

(** C4, as stated, fails: this response is exactly a three-field JSON
    object, yet the strategy of the Decision is not the strategy of the
    JSON: the code fence quoted inside the value is removed before the
    text is decoded. *)
Lemma parse_drops_fence_inside_value :
  json_loads backtick_response
  = Some (JObject [ (lit "strategy", JString (lit "a```b"));
                    (lit "speech", JString []);
                    (lit "vote", JNull) ])
  /\ UnifiedLLMClient._parse_and_validate (RT := sample_runtime) backtick_response
     = Ok (TurnOutput.mk (lit "ab") [] None)
  /\ lit "ab" <> lit "a```b".
Proof.
  split; [vm_compute; reflexivity|]. split; [vm_compute; reflexivity|].
  vm_compute. discriminate.
Qed.

(** C4 (amended): a response text that [json.loads] decodes to an
    object with exactly the three fields strategy (string), speech
    (string) and vote (string or null), and that contains no run of
    three backticks, parses and validates, and the three fields of the
    Decision are the three values of the JSON, unchanged. *)
Theorem parse_roundtrip `{RT : Runtime} (text : pystr)
        (members : list (pystr * json)) (strategy speech : pystr)
        (vote : option pystr) :
  json_loads text = Some (JObject members) ->
  length members = 3 ->
  dict_get (lit "strategy") members = Some (JString strategy) ->
  dict_get (lit "speech") members = Some (JString speech) ->
  dict_get (lit "vote") members
  = Some (match vote with Some v => JString v | None => JNull end) ->
  contains UnifiedLLMClient.fence text = false ->
  UnifiedLLMClient._parse_and_validate text
  = Ok (TurnOutput.mk strategy speech vote).
Proof.
  intros Hloads Hlen Hstrategy Hspeech Hvote Hfence.
  destruct (json_object_text _ _ Hloads) as (w & c0 & rest & Htext & Hw & Hrest & Hcore).
  assert (Hclean : UnifiedLLMClient.clean_text text = 123%N :: c0 ++ [125%N]).
  { unfold UnifiedLLMClient.clean_text.
    change (strip (drop_fences (drop_json_fences text)) = 123%N :: c0 ++ [125%N]).
    assert (H1 : drop_json_fences text = text).
    { apply (contains_false_replace 96%N [96; 96; 106; 115; 111; 110]%N []).
      apply (contains_prefix [96; 96; 96]%N [106; 115; 111; 110]%N text Hfence). }
    assert (H2 : drop_fences text = text)
      by apply (contains_false_replace 96%N [96; 96]%N [] text Hfence).
    rewrite H1, H2, Htext.
    apply strip_core; auto using ws_only_spaces. }
  unfold UnifiedLLMClient._parse_and_validate. cbv zeta.
  rewrite Hclean, Hcore.
  unfold TurnOutput.new. rewrite Hstrategy, Hspeech, Hvote, Hlen.
  destruct vote; reflexivity.
Qed.

Lemma parse_roundtrip_witness :
  UnifiedLLMClient._parse_and_validate (RT := sample_runtime) sample_response
  = Ok (TurnOutput.mk (lit "hold") [] None).
Proof.
  apply (@parse_roundtrip sample_runtime sample_response sample_members
           (lit "hold") [] None); vm_compute; reflexivity.
Defined.

(** C5, as stated, fails: under a fence tagged with a language other
    than [json] the tag stays in the cleaned text and the parse fails,
    while the unwrapped text parses. *)
Lemma other_language_tag_not_stripped :
  UnifiedLLMClient._parse_and_validate (RT := sample_runtime) javascript_sample
  = Raise (UnifiedLLMClient.parse_failure (RT := sample_runtime)
             (JSONDecodeError (lit "javascript" ++ nl ++ sample_response)))
  /\ UnifiedLLMClient._parse_and_validate (RT := sample_runtime) sample_response
     = Ok (TurnOutput.mk (lit "hold") [] None).
Proof.
  split; vm_compute; reflexivity.
Qed.

(** C5 (amended): for every text that [json.loads] decodes to an object
    (so for every valid three-field object text), the text wrapped in
    code fences that open with three backticks, alone or followed by
    the tag [json], and close with three backticks, with any whitespace
    before, between and after, is parsed and validated exactly as the
    unwrapped text is; and the example of the design document parses to
    the Decision with strategy [hold], empty speech and no vote. *)
Theorem fenced_parses_like_plain `{RT : Runtime} :
  (forall (text : pystr) (members : list (pystr * json)) (a opening b c e : pystr),
      json_loads text = Some (JObject members) ->
      spaces a -> spaces b -> spaces c -> spaces e ->
      opening = UnifiedLLMClient.fence \/ opening = UnifiedLLMClient.fence_json ->
      UnifiedLLMClient._parse_and_validate
        (a ++ opening ++ b ++ text ++ c ++ UnifiedLLMClient.fence ++ e)
      = UnifiedLLMClient._parse_and_validate text)
  /\ UnifiedLLMClient._parse_and_validate fenced_sample
     = Ok (TurnOutput.mk (lit "hold") [] None).
Proof.
  split; [|vm_compute; reflexivity].
  intros text members a opening b c e Hloads Ha Hb Hc He Hopen.
  destruct (json_object_text _ _ Hloads) as (w & c0 & rest & -> & Hw & Hrest & _).
  apply ws_only_spaces in Hw, Hrest.
  assert (Hsame :
    UnifiedLLMClient.clean_text
      (a ++ opening ++ b ++ (w ++ 123%N :: c0 ++ 125%N :: rest)
         ++ c ++ UnifiedLLMClient.fence ++ e)
    = UnifiedLLMClient.clean_text (w ++ 123%N :: c0 ++ 125%N :: rest)).
  { rewrite (clean_text_object w c0 rest Hw Hrest).
    rewrite <- (clean_text_fenced a opening (b ++ w) c0 (rest ++ c) e);
      auto using spaces_app.
    f_equal. repeat (rewrite <- app_assoc; cbn [app]). reflexivity. }
  unfold UnifiedLLMClient._parse_and_validate. cbv zeta.
  now rewrite Hsame.
Qed.

Lemma fenced_parses_like_plain_witness :
  UnifiedLLMClient._parse_and_validate (RT := sample_runtime)
    (lit "  " ++ UnifiedLLMClient.fence_json ++ nl ++ sample_response ++ nl
       ++ UnifiedLLMClient.fence ++ lit "  ")
  = UnifiedLLMClient._parse_and_validate (RT := sample_runtime) sample_response.
Proof.
  apply (proj1 (@fenced_parses_like_plain sample_runtime)
           sample_response sample_members (lit "  ") UnifiedLLMClient.fence_json
           nl nl (lit "  ")).
  - vm_compute; reflexivity.
  - repeat constructor.
  - repeat constructor.
  - repeat constructor.
  - repeat constructor.
  - now right.
Defined.

(** ** [str.strip] *)

Lemma lstrip_split (s : pystr) : exists w, s = w ++ lstrip s /\ spaces w.
Proof.
  induction s as [|x s IH]; cbn [lstrip].
  - exists []. split; [reflexivity|constructor].
  - destruct (isspace x) eqn:E.
    + destruct IH as [w [Hs Hw]]. exists (x :: w). split.
      * cbn [app]. now f_equal.
      * now constructor.
    + exists []. split; [reflexivity|constructor].
Qed.

Lemma lstrip_starts_clean (s : pystr) : starts_clean (lstrip s) = true.
Proof.
  induction s as [|x s IH]; cbn [lstrip]; [reflexivity|].
  destruct (isspace x) eqn:E; [exact IH|].
  cbn [starts_clean]. now rewrite E.
Qed.

Lemma lstrip_fix (s : pystr) : starts_clean s = true -> lstrip s = s.
Proof.
  destruct s as [|x s]; [reflexivity|]. cbn [starts_clean lstrip].
  intros H. apply negb_true_iff in H. now rewrite H.
Qed.

Lemma lstrip_keeps_end (v : pystr) (x : N) (r : pystr) :
  isspace x = false -> lstrip (v ++ x :: r) = lstrip v ++ x :: r.
Proof.
  intros Hx. induction v as [|y v IH]; cbn [app lstrip].
  - now rewrite Hx.
  - destruct (isspace y); [exact IH|reflexivity].
Qed.

Lemma lstrip_spaces_all (w : pystr) : spaces w -> lstrip w = [].
Proof.
  induction 1 as [|x w Hx _ IH]; [reflexivity|].
  cbn [lstrip]. now rewrite Hx.
Qed.

Lemma strip_trimmed (s : pystr) : trimmed (strip s).
Proof.
  unfold trimmed, strip, rstrip. split.
  - pose proof (lstrip_starts_clean s) as Hhead.
    destruct (lstrip s) as [|x t]; [reflexivity|].
    cbn [starts_clean] in Hhead. apply negb_true_iff in Hhead.
    cbn [rev]. rewrite (lstrip_keeps_end (rev t) x [] Hhead).
    rewrite rev_app_distr. cbn [rev app starts_clean]. now rewrite Hhead.
  - rewrite rev_involutive. apply lstrip_starts_clean.
Qed.

Lemma strip_fix (s : pystr) : trimmed s -> strip s = s.
Proof.
  intros [Hh Ht]. unfold strip, rstrip.
  rewrite (lstrip_fix s Hh), (lstrip_fix (rev s) Ht). apply rev_involutive.
Qed.

Lemma strip_spaces (w : pystr) : spaces w -> strip w = [].
Proof.
  intros Hw. unfold strip. now rewrite (lstrip_spaces_all w Hw).
Qed.

(** ** What a text contains *)

Lemma contains_app_r (p a b : pystr) :
  contains p (a ++ b) = false -> contains p b = false.
Proof.
  induction a as [|x a IH]; [auto|].
  cbn [app contains]. intros H. apply orb_false_iff in H as [_ H]. auto.
Qed.

Lemma startswith_app (p a b : pystr) :
  startswith p a = true -> startswith p (a ++ b) = true.
Proof.
  revert a; induction p as [|x p IH]; intros a; [reflexivity|].
  destruct a as [|y a]; [discriminate|]. cbn [app startswith].
  intros H. apply andb_true_iff in H as [H1 H2].
  rewrite H1. now apply IH.
Qed.

Lemma contains_app_l (p a b : pystr) :
  p <> [] -> contains p (a ++ b) = false -> contains p a = false.
Proof.
  intros Hp. induction a as [|x a IH].
  - destruct p; [contradiction|reflexivity].
  - cbn [app contains]. intros H. apply orb_false_iff in H as [H1 H2].
    rewrite (IH H2), orb_false_r.
    destruct (startswith p (x :: a)) eqn:E; [|reflexivity].
    apply (startswith_app p (x :: a) b) in E. cbn [app] in E. congruence.
Qed.

Lemma contains_strip (p s : pystr) :
  p <> [] -> contains p s = false -> contains p (strip s) = false.
Proof.
  intros Hp H. unfold strip, rstrip.
  destruct (lstrip_split s) as [w [Hs _]].
  rewrite Hs in H. apply contains_app_r in H.
  destruct (lstrip_split (rev (lstrip s))) as [w' [Hr _]].
  apply (f_equal (@rev N)) in Hr. rewrite rev_involutive, rev_app_distr in Hr.
  rewrite Hr in H. now apply contains_app_l in H.
Qed.

(** ** The output of the second [replace] has no fence left *)

Lemma drop_fences_two (s : pystr) :
  startswith [96; 96]%N (replace_from [96; 96; 96]%N [] 0 s) = true ->
  startswith [96; 96]%N s = true.
Proof.
  destruct s as [|c [|d t]]; cbn [replace_from startswith].
  - discriminate.
  - destruct (96 =? c)%N eqn:Ec; cbn [andb startswith]; rewrite ?Ec; discriminate.
  - destruct (96 =? c)%N eqn:Ec; cbn [andb].
    + destruct (96 =? d)%N eqn:Ed; cbn [andb]; [reflexivity|].
      cbn [startswith]. rewrite Ec. cbn [andb].
      destruct t as [|e t]; cbn [replace_from startswith]; rewrite ?Ed; cbn [andb];
        cbn [startswith]; rewrite ?Ed; discriminate.
    + cbn [startswith]. rewrite Ec. discriminate.
Qed.

Lemma drop_fences_clean (s : pystr) (k : nat) :
  contains [96; 96; 96]%N (replace_from [96; 96; 96]%N [] k s) = false.
Proof.
  revert k; induction s as [|c s IH]; intros k; [reflexivity|].
  cbn [replace_from]. destruct k as [|k]; [|apply IH].
  destruct (startswith [96; 96; 96]%N (c :: s)) eqn:Est; [apply IH|].
  cbn [contains]. rewrite IH, orb_false_r.
  cbn [startswith] in *.
  destruct (96 =? c)%N eqn:Ec; [|reflexivity]. cbn [andb] in *.
  destruct (startswith [96; 96]%N (replace_from [96; 96; 96]%N [] 0 s)) eqn:E2;
    [|exact E2].
  apply drop_fences_two in E2. cbn [startswith] in E2. congruence.
Qed.

(* ===================================================================== *)
(** * More about the dispatcher *)
(* ===================================================================== *)

Lemma drop_fences_no_fence (s : pystr) :
  contains UnifiedLLMClient.fence (drop_fences s) = false.
Proof. apply (drop_fences_clean s 0). Qed.

Lemma fence_free_fixed (s : pystr) :
  contains UnifiedLLMClient.fence s = false ->
  drop_json_fences s = s /\ drop_fences s = s.
Proof.
  intros H. split.
  - apply (contains_false_replace 96%N [96; 96; 106; 115; 111; 110]%N []).
    apply (contains_prefix [96; 96; 96]%N [106; 115; 111; 110]%N s H).
  - apply (contains_false_replace 96%N [96; 96]%N [] s H).
Qed.

Lemma clean_text_unfold (s : pystr) :
  UnifiedLLMClient.clean_text s = strip (drop_fences (drop_json_fences s)).
Proof. reflexivity. Qed.

(** X1: the text handed to [json.loads] holds no run of three backticks
    (so no [```json] either) and has no whitespace at either end. *)
Theorem clean_text_fence_free (response_text : pystr) :
  contains UnifiedLLMClient.fence (UnifiedLLMClient.clean_text response_text) = false
  /\ contains UnifiedLLMClient.fence_json (UnifiedLLMClient.clean_text response_text)
     = false
  /\ trimmed (UnifiedLLMClient.clean_text response_text).
Proof.
  rewrite clean_text_unfold.
  assert (H : contains UnifiedLLMClient.fence
                (strip (drop_fences (drop_json_fences response_text))) = false).
  { apply contains_strip; [discriminate|]. apply drop_fences_no_fence. }
  split; [exact H|]. split.
  - apply (contains_prefix [96; 96; 96]%N [106; 115; 111; 110]%N _ H).
  - apply strip_trimmed.
Qed.

(** X2: cleaning is idempotent, so a response that was already cleaned
    parses exactly as the raw one. *)
Theorem clean_text_idempotent `{RT : Runtime} (response_text : pystr) :
  UnifiedLLMClient.clean_text (UnifiedLLMClient.clean_text response_text)
  = UnifiedLLMClient.clean_text response_text
  /\ UnifiedLLMClient._parse_and_validate (UnifiedLLMClient.clean_text response_text)
     = UnifiedLLMClient._parse_and_validate response_text.
Proof.
  assert (Hidem : UnifiedLLMClient.clean_text (UnifiedLLMClient.clean_text response_text)
                  = UnifiedLLMClient.clean_text response_text).
  { rewrite (clean_text_unfold (UnifiedLLMClient.clean_text response_text)).
    assert (Hfree : contains UnifiedLLMClient.fence
                      (UnifiedLLMClient.clean_text response_text) = false).
    { rewrite clean_text_unfold.
      apply contains_strip; [discriminate|]. apply drop_fences_no_fence. }
    destruct (fence_free_fixed _ Hfree) as [H1 H2].
    rewrite H1, H2. apply strip_fix. rewrite clean_text_unfold. apply strip_trimmed. }
  split; [exact Hidem|].
  unfold UnifiedLLMClient._parse_and_validate. cbv zeta. now rewrite Hidem.
Qed.

(** X3: an empty or blank response is a parse failure: it is never taken
    for a Decision. *)
Theorem blank_response_rejected `{RT : Runtime} (response_text : pystr) :
  spaces response_text ->
  UnifiedLLMClient._parse_and_validate response_text
  = Raise (UnifiedLLMClient.parse_failure (JSONDecodeError [])).
Proof.
  intros Hs.
  assert (Hclean : UnifiedLLMClient.clean_text response_text = []).
  { rewrite clean_text_unfold.
    rewrite (drop_json_spaces _ Hs), (drop_spaces _ Hs). now apply strip_spaces. }
  unfold UnifiedLLMClient._parse_and_validate. cbv zeta. rewrite Hclean. reflexivity.
Qed.

Lemma blank_response_rejected_witness :
  UnifiedLLMClient._parse_and_validate (RT := sample_runtime) (lit "  " ++ nl)
  = Raise (UnifiedLLMClient.parse_failure (RT := sample_runtime) (JSONDecodeError [])).
Proof.
  apply (@blank_response_rejected sample_runtime (lit "  " ++ nl)).
  repeat constructor.
Defined.

(** X4: whatever goes wrong in [_parse_and_validate], the caller sees a
    [ValueError] whose text is [Failed to parse model output as JSON: ]
    followed by the text of the cause, and the cause is the decoding
    error of the cleaned text when [json.loads] rejects it, the error
    of the schema otherwise. *)
Theorem parse_failure_is_value_error `{RT : Runtime} (response_text : pystr) (e : exn) :
  UnifiedLLMClient._parse_and_validate response_text = Raise e ->
  let cleaned := strip (drop_fences (drop_json_fences response_text)) in
  exists cause,
    e = ValueError (lit "Failed to parse model output as JSON: " ++ str_exn cause)
    /\ match json_loads cleaned with
       | None => cause = JSONDecodeError cleaned
       | Some data => TurnOutput.new data = Raise cause
       end.
Proof.
  cbv zeta. rewrite <- clean_text_unfold.
  unfold UnifiedLLMClient._parse_and_validate. cbv zeta.
  destruct (json_loads _) as [data|].
  - destruct (TurnOutput.new data) as [out|cause]; [discriminate|].
    intros H. injection H as <-. now exists cause.
  - intros H. injection H as <-. eexists. split; reflexivity.
Qed.

Lemma parse_failure_is_value_error_witness :
  exists cause,
    UnifiedLLMClient.parse_failure (RT := sample_runtime)
      (JSONDecodeError (lit "javascript" ++ nl ++ sample_response))
    = ValueError (lit "Failed to parse model output as JSON: "
                    ++ str_exn (RT := sample_runtime) cause)
    /\ cause = JSONDecodeError (lit "javascript" ++ nl ++ sample_response).
Proof.
  pose proof (@parse_failure_is_value_error sample_runtime javascript_sample
                (UnifiedLLMClient.parse_failure (RT := sample_runtime)
                   (JSONDecodeError (lit "javascript" ++ nl ++ sample_response))))
    as H.
  cbv zeta in H.
  destruct H as [cause [He Hcause]]; [vm_compute; reflexivity|].
  exists cause. split; [exact He|].
  vm_compute in Hcause. exact Hcause.
Defined.

(** X5: the argument vector of a local tool: the command first, then
    the tool's own word, which is [exec] exactly for [codex], [--print]
    exactly for [claude] and absent for every other command, then
    [--model], the model and the prompt, the prompt being the last,
    single argument. *)
Theorem cli_argv_shape (command model prompt : pystr) :
  exists own,
    UnifiedLLMClient.cli_argv command model prompt
    = command :: own ++ [lit "--model"; model; prompt]
    /\ (own = [lit "exec"] <-> command = lit "codex")
    /\ (own = [lit "--print"] <-> command = lit "claude")
    /\ (own = [] <-> command <> lit "codex" /\ command <> lit "claude").
Proof.
  unfold UnifiedLLMClient.cli_argv.
  destruct (str_eqb command (lit "codex")) eqn:E1.
  { apply str_eqb_eq in E1. subst. exists [lit "exec"].
    split; [reflexivity|]. split; [tauto|]. split.
    - split; discriminate.
    - split; [discriminate|]. intros [H _]. now contradiction H. }
  destruct (str_eqb command (lit "claude")) eqn:E2.
  { apply str_eqb_eq in E2. subst. exists [lit "--print"].
    split; [reflexivity|]. split; [|split].
    - split; discriminate.
    - tauto.
    - split; [discriminate|]. intros [_ H]. now contradiction H. }
  assert (N1 : command <> lit "codex")
    by (intros H; apply str_eqb_eq in H; congruence).
  assert (N2 : command <> lit "claude")
    by (intros H; apply str_eqb_eq in H; congruence).
  assert (Hshape : [command; lit "--model"; model; prompt]
                   = command :: [] ++ [lit "--model"; model; prompt]
                   /\ ([] = [lit "exec"] <-> command = lit "codex")
                   /\ ([] = [lit "--print"] <-> command = lit "claude")
                   /\ (@nil pystr = [] <-> command <> lit "codex"
                                          /\ command <> lit "claude")).
  { split; [reflexivity|]. split; [|split].
    - split; [discriminate|]. intros H. now contradiction N1.
    - split; [discriminate|]. intros H. now contradiction N2.
    - tauto. }
  exists [].
  destruct (str_eqb command (lit "gemini")) eqn:E3.
  { apply str_eqb_eq in E3. subst. exact Hshape. }
  destruct (str_eqb command (lit "qwen")) eqn:E4.
  { apply str_eqb_eq in E4. subst. exact Hshape. }
  exact Hshape.
Qed.

(* ===================================================================== *)
(** * More about the agent *)
(* ===================================================================== *)

Lemma not_mafia (self : Player.t) :
  PlayerState.role (Player.state self) <> lit "Mafia" -> Player.is_mafia self = false.
Proof. intros H. unfold Player.is_mafia. now apply str_eqb_neq. Qed.

(** X11: what a non-Mafia agent sends to its backend holds nothing of the
    Mafia-only log and nothing of the partner reference: the request is
    the same whatever they are. *)
Theorem outsider_request_blind (self : Player.t) (game_state : GameState.t)
        (turn_number : Z) (secret : list LogEntry.t) (partner : pystr) :
  PlayerState.role (Player.state self) <> lit "Mafia" ->
  Player.turn_request self
    (GameState.mk (GameState.phase game_state) (GameState.turn game_state)
       (GameState.players game_state) (GameState.public_logs game_state)
       secret (GameState.nominees game_state))
    turn_number
  = Player.turn_request self game_state turn_number
  /\ Player.turn_request (Player.set_partner self partner) game_state turn_number
     = Player.turn_request self game_state turn_number.
Proof.
  intros Hrole. pose proof (not_mafia self Hrole) as Hm.
  assert (Hm' : Player.is_mafia (Player.set_partner self partner) = false) by exact Hm.
  unfold Player.turn_request, Player._build_system_prompt, Player._build_turn_prompt,
    Player.turn_context, Player.speech_desc, Player.vote_desc.
  cbv zeta. rewrite Hm, Hm'. rewrite !andb_false_r.
  split; reflexivity.
Qed.

Lemma outsider_request_blind_witness :
  let self := sample_player failing_client (lit "Villager") [] None in
  Player.turn_request self
    (GameState.mk (GameState.phase game_over) (GameState.turn game_over)
       (GameState.players game_over) (GameState.public_logs game_over)
       [] (GameState.nominees game_over)) 5
  = Player.turn_request self game_over 5.
Proof.
  cbv zeta.
  apply (outsider_request_blind
           (sample_player failing_client (lit "Villager") [] None) game_over 5 []
           (lit "Bob")).
  vm_compute. discriminate.
Defined.

(** X12: the Alive and Dead lists of the turn prompt split the roster:
    together they hold every name of the roster, each as often as the
    roster does, and the living keep their roster order. *)
Theorem roster_split (game_state : GameState.t) :
  Permutation (Player.living game_state ++ Player.dead game_state)
              (map PlayerState.name (GameState.players game_state))
  /\ length (Player.living game_state) + length (Player.dead game_state)
     = length (GameState.players game_state).
Proof.
  unfold Player.living, Player.dead.
  induction (GameState.players game_state) as [|p l [IHp IHl]]; cbn [filter map].
  - split; [constructor|reflexivity].
  - destruct (PlayerState.is_alive p); cbn [negb map app length].
    + split; [now constructor|lia].
    + split.
      * apply Permutation_sym, Permutation_cons_app, Permutation_sym, IHp.
      * cbn [length] in *. lia.
Qed.


(** X14: the turn prompt without its loops: the roster lines, then one
    line [[phase] actor: content] for every entry of the public log,
    none left out, in log order, then, for a Mafia agent only, the
    Mafia header and one such line for every entry of the Mafia-only
    log, then the previous strategy if there is one, then the
    instructions. *)
Theorem turn_prompt_logs (self : Player.t) (game_state : GameState.t) :
  let roster_lines :=
    lit "State: " ++ GameState.phase game_state ++ lit " "
      ++ str_of_int (GameState.turn game_state) ++ nl
      ++ lit "Alive: " ++ join (lit ", ") (Player.living game_state) ++ nl
      ++ lit "Dead: "
      ++ (match Player.dead game_state with
          | [] => lit "None"
          | _ :: _ => join (lit ", ") (Player.dead game_state)
          end) ++ nl ++ nl in
  let line entry :=
    lit "[" ++ LogEntry.phase entry ++ lit "] " ++ LogEntry.actor entry
      ++ lit ": " ++ LogEntry.content entry ++ nl in
  Player._build_turn_prompt self game_state
  = roster_lines ++ (lit "--- LOG ---" ++ nl)
      ++ concat (map line (GameState.public_logs game_state))
      ++ (if str_eqb (PlayerState.role (Player.state self)) (lit "Mafia")
          then (nl ++ lit "--- MAFIA LOG ---" ++ nl)
                 ++ concat (map line (GameState.mafia_logs game_state))
          else [])
      ++ match PlayerState.strategy (Player.state self) with
         | [] => []
         | strategy =>
             (nl ++ lit "--- PREV STRATEGY (update) ---" ++ nl) ++ strategy ++ nl
         end
      ++ Player.turn_instructions game_state.
Proof.
  cbv zeta. unfold Player._build_turn_prompt, Player.turn_context. cbv zeta.
  change Player.comma with (lit ", ").
  fold (Player.is_mafia self).
  set (roster_lines := lit "State: " ++ _).
  rewrite !append_logs_concat.
  change Player.render_log
    with (fun entry => lit "[" ++ LogEntry.phase entry ++ lit "] "
                         ++ LogEntry.actor entry ++ lit ": "
                         ++ LogEntry.content entry ++ nl).
  destruct (Player.is_mafia self);
    destruct (PlayerState.strategy (Player.state self)) as [|c s]; cbn [truthy];
    rewrite ?append_logs_concat; repeat rewrite <- app_assoc; rewrite ?app_nil_r;
    reflexivity.
Qed.

(** X15: the strategy a successful turn brought back is what the next
    turn prompt shows as the previous strategy, word for word: that
    prompt is the prompt of the same agent without a strategy, with the
    strategy section put in just before the instructions. *)
Theorem strategy_fed_back (self : Player.t) (game_state next_state : GameState.t)
        (turn_number : Z) (w w' : World) (output : TurnOutput.t) :
  Player.client self (Player.turn_request self game_state turn_number) w
  = (Ok output, w') ->
  TurnOutput.strategy output <> [] ->
  let self' := snd (fst (Player.take_turn self game_state turn_number w)) in
  exists before,
    Player._build_turn_prompt (Player.set_strategy self []) next_state
    = before ++ Player.turn_instructions next_state
    /\ Player._build_turn_prompt self' next_state
       = before
           ++ (nl ++ lit "--- PREV STRATEGY (update) ---" ++ nl)
           ++ (TurnOutput.strategy output ++ nl)
           ++ Player.turn_instructions next_state.
Proof.
  intros Hcall Hne. cbv zeta.
  exists (Player.turn_context (Player.set_strategy self []) next_state).
  split; [reflexivity|].
  assert (Hassoc : forall X h s i : pystr, ((X ++ h) ++ s) ++ i = X ++ h ++ s ++ i)
    by (intros; now rewrite <- !app_assoc).
  unfold Player.take_turn. rewrite Hcall.
  destruct (TurnOutput.strategy output) as [|c s] eqn:Es; [contradiction|].
  cbn [truthy fst snd].
  unfold Player._build_turn_prompt, Player.turn_context. cbv zeta.
  cbn [Player.set_strategy Player.state PlayerState.strategy truthy].
  apply Hassoc.
Qed.

Lemma strategy_fed_back_witness :
  let out := TurnOutput.mk (lit "accuse Cy") (lit "I pass.") None in
  let self := sample_player (constant_client out) (lit "Mafia") [] None in
  exists before,
    Player._build_turn_prompt (Player.set_strategy self []) game_over
    = before ++ Player.turn_instructions game_over
    /\ Player._build_turn_prompt
         (snd (fst (Player.take_turn self day_one 1 empty_world))) game_over
       = before
           ++ (nl ++ lit "--- PREV STRATEGY (update) ---" ++ nl)
           ++ (lit "accuse Cy" ++ nl)
           ++ Player.turn_instructions game_over.
Proof.
  cbv zeta.
  apply (strategy_fed_back
           (sample_player (constant_client (TurnOutput.mk (lit "accuse Cy") (lit "I pass.") None))
              (lit "Mafia") [] None)
           day_one game_over 1 empty_world empty_world
           (TurnOutput.mk (lit "accuse Cy") (lit "I pass.") None)).
  - reflexivity.
  - discriminate.
Defined.

Lemma strip_split (s : pystr) :
  exists before after,
    s = before ++ strip s ++ after /\ spaces before /\ spaces after.
Proof.
  destruct (lstrip_split s) as [a [Hs Ha]].
  destruct (lstrip_split (rev (lstrip s))) as [b [Hr Hb]].
  exists a, (rev b). split; [|split; [exact Ha|]].
  - unfold strip, rstrip.
    apply (f_equal (@rev N)) in Hr. rewrite rev_involutive, rev_app_distr in Hr.
    rewrite <- Hr. exact Hs.
  - unfold spaces in *. now apply Forall_rev.
Qed.

(** C2: [reflect_on_game] always returns a text and never raises.  When
    the Dispatcher succeeds the text is the strategy field of the
    Decision with the surrounding whitespace taken off: the field is
    whitespace, then the text, then whitespace, and the text neither
    begins nor ends with a whitespace character.  When the Dispatcher
    raises, whatever the exception, the text is the memory the agent
    already had.  The world is left as the Dispatcher left it. *)
Theorem reflect_on_game_total (self : Player.t) (game_state : GameState.t)
        (winner : pystr) (w : World) :
  match Player.client self (Player.reflection_request self game_state winner) w with
  | (Ok output, w') =>
      exists new_memory before after,
        Player.reflect_on_game self game_state winner w = (Ok new_memory, w')
        /\ TurnOutput.strategy output = before ++ new_memory ++ after
        /\ spaces before /\ spaces after
        /\ trimmed new_memory
  | (Raise e, w') =>
      Player.reflect_on_game self game_state winner w
      = (Ok (Player.memory self), w')
  end.
Proof.
  unfold Player.reflect_on_game, try_except, bind, ret.
  destruct (Player.client self _ w) as [[output|e] w']; [|reflexivity].
  destruct (strip_split (TurnOutput.strategy output)) as [before [after [Hs [Hb Ha]]]].
  exists (strip (TurnOutput.strategy output)), before, after.
  split; [reflexivity|]. split; [exact Hs|]. split; [exact Hb|].
  split; [exact Ha|apply strip_trimmed].
Qed.

(** X16: a memory that [reflect_on_game] produced and that is read back
    from the agent's memory file is what [__init__] loads, unchanged:
    the text returned is the strategy field of the Decision without its
    surrounding whitespace, so stripping it again on load takes nothing
    away. *)
Theorem memory_round_trip (self : Player.t) (game_state : GameState.t)
        (winner : pystr) (w w' : World) (output : TurnOutput.t) :
  Player.client self (Player.reflection_request self game_state winner) w
  = (Ok output, w') ->
  exists new_memory before after,
    fst (Player.reflect_on_game self game_state winner w) = Ok new_memory
    /\ TurnOutput.strategy output = before ++ new_memory ++ after
    /\ spaces before /\ spaces after
    /\ trimmed new_memory
    /\ forall name role provider model_name client player_index use_cli later,
         files later (lit "memories/" ++ name ++ lit ".txt") = Some new_memory ->
         Player.memory
           (Player.init name role provider model_name client player_index use_cli
              true later)
         = new_memory.
Proof.
  intros Hcall.
  destruct (strip_split (TurnOutput.strategy output)) as [before [after [Hs [Hb Ha]]]].
  exists (strip (TurnOutput.strategy output)), before, after.
  split; [|split; [exact Hs|split; [exact Hb|split; [exact Ha|split]]]].
  - unfold Player.reflect_on_game, try_except, bind, ret. now rewrite Hcall.
  - apply strip_trimmed.
  - intros name role provider model_name client player_index use_cli later Hfile.
    unfold Player.init. cbn [Player.memory].
    change (Player.memory_path name) with (lit "memories/" ++ name ++ lit ".txt").
    rewrite Hfile. apply strip_fix, strip_trimmed.
Qed.

Lemma memory_round_trip_witness :
  let out := TurnOutput.mk (lit "  doubt the quiet ones ") (lit "MEMORY_FILE_UPDATE") None in
  let self := sample_player (constant_client out) (lit "Villager") [] None in
  fst (Player.reflect_on_game self game_over (lit "Town") empty_world)
  = Ok (lit "doubt the quiet ones")
  /\ Player.memory
       (Player.init (lit "Ada") (lit "Villager") (lit "openai") (lit "gpt")
          failing_client 3 true true
          (mkWorld (fun p => if str_eqb p (lit "memories/Ada.txt")
                             then Some (lit "doubt the quiet ones") else None) []))
     = lit "doubt the quiet ones".
Proof.
  cbv zeta.
  destruct (memory_round_trip
              (sample_player
                 (constant_client
                    (TurnOutput.mk (lit "  doubt the quiet ones ")
                       (lit "MEMORY_FILE_UPDATE") None))
                 (lit "Villager") [] None)
              game_over (lit "Town") empty_world empty_world
              (TurnOutput.mk (lit "  doubt the quiet ones ") (lit "MEMORY_FILE_UPDATE") None)
              eq_refl)
    as [new_memory [before [after [Hres [_ [_ [_ [_ Hload]]]]]]]].
  assert (Hnew : new_memory = lit "doubt the quiet ones").
  { vm_compute in Hres. now injection Hres as <-. }
  subst new_memory. split; [reflexivity|].
  apply Hload. reflexivity.
Defined.



(* ===================================================================== *)
(** * One audit file for each agent *)
(* ===================================================================== *)

Lemma lit_inj (a b : string) : lit a = lit b -> a = b.
Proof.
  unfold lit. intros H.
  apply (f_equal (map ascii_of_N)) in H.
  rewrite !map_map in H.
  rewrite !(map_ext _ (fun x => x) ascii_N_embedding), !map_id in H.
  apply (f_equal string_of_list_ascii) in H.
  now rewrite !string_of_list_ascii_of_string in H.
Qed.

Lemma str_of_int_inj (a b : Z) : str_of_int a = str_of_int b -> a = b.
Proof.
  unfold str_of_int. intros H. apply lit_inj in H.
  assert (Hnn : forall z, Z.to_int z <> Decimal.Pos Decimal.Nil
                          /\ Z.to_int z <> Decimal.Neg Decimal.Nil).
  { intros [|p|p]; cbn [Z.to_int]; split; try discriminate;
      intros E; injection E as E; exact (DecimalPos.Unsigned.to_uint_nonnil p E). }
  apply (f_equal NilZero.int_of_string) in H.
  destruct (Hnn a) as [Ha1 Ha2], (Hnn b) as [Hb1 Hb2].
  rewrite (NilZero.isi _ Ha1 Ha2), (NilZero.isi _ Hb1 Hb2) in H.
  injection H as H. now apply DecimalZ.to_int_inj.
Qed.

Lemma digits_no_underscore (d : Decimal.uint) :
  ~ In 95%N (lit (NilEmpty.string_of_uint d)).
Proof.
  induction d as [|d IH|d IH|d IH|d IH|d IH|d IH|d IH|d IH|d IH|d IH];
    [intros []| | | | | | | | | |];
    cbn [NilEmpty.string_of_uint];
    match goal with
    | |- ~ In _ (lit (String ?c ?s)) =>
        change (lit (String c s)) with (N_of_ascii c :: lit s)
    end;
    (intros [H|H]; [discriminate H|exact (IH H)]).
Qed.

Lemma str_of_int_no_underscore (z : Z) : ~ In 95%N (str_of_int z).
Proof.
  assert (Hu : forall d, ~ In 95%N (lit (NilZero.string_of_uint d))).
  { intros d. destruct d; try apply digits_no_underscore.
    cbn. intros [H|[]]. discriminate H. }
  unfold str_of_int. destruct (Z.to_int z) as [d|d]; cbn [NilZero.string_of_int].
  - apply Hu.
  - change (lit (String "-" (NilZero.string_of_uint d)))
      with (45%N :: lit (NilZero.string_of_uint d)).
    intros [H|H]; [discriminate H|exact (Hu d H)].
Qed.

Lemma split_at_first (x : N) (a b r1 r2 : pystr) :
  ~ In x a -> ~ In x b -> a ++ x :: r1 = b ++ x :: r2 -> a = b /\ r1 = r2.
Proof.
  revert b. induction a as [|c a IH]; intros [|d b] Ha Hb H; cbn [app] in H.
  - injection H as H. now split.
  - injection H as H _. exfalso. apply Hb. now left.
  - injection H as H _. exfalso. apply Ha. now left.
  - injection H as Hc H.
    destruct (IH b) as [E1 E2]; [| |exact H|].
    + intros Hin. apply Ha. now right.
    + intros Hin. apply Hb. now right.
    + subst. now split.
Qed.

(** X18: each agent has an audit file of its own: two agents that differ
    in their seat number or in their name send different player names
    to the dispatcher, and the dispatcher keeps their audits under
    different paths. *)
Theorem audit_file_per_agent (p q : Player.t) :
  Player.player_index p <> Player.player_index q
  \/ PlayerState.name (Player.state p) <> PlayerState.name (Player.state q) ->
  Player.log_name p <> Player.log_name q
  /\ UnifiedLLMClient.history_path (Player.log_name p)
     <> UnifiedLLMClient.history_path (Player.log_name q).
Proof.
  intros Hdiff.
  assert (Hname : Player.log_name p <> Player.log_name q).
  { unfold Player.log_name. intros H.
    change (lit "_") with [95%N] in H. cbn [app] in H.
    apply split_at_first in H; try apply str_of_int_no_underscore.
    destruct H as [Hi Hn]. apply str_of_int_inj in Hi.
    destruct Hdiff as [Hd|Hd]; contradiction. }
  split; [exact Hname|].
  unfold UnifiedLLMClient.history_path. intros H.
  apply app_inv_head, app_inv_tail in H. contradiction.
Qed.

Lemma audit_file_per_agent_witness :
  let p := sample_player failing_client (lit "Mafia") [] None in
  let q := Player.mk (sample_state (lit "Mafia") []) failing_client 31 None [] true in
  Player.log_name p <> Player.log_name q
  /\ UnifiedLLMClient.history_path (Player.log_name p)
     <> UnifiedLLMClient.history_path (Player.log_name q).
Proof.
  cbv zeta.
  apply (audit_file_per_agent
           (sample_player failing_client (lit "Mafia") [] None)
           (Player.mk (sample_state (lit "Mafia") []) failing_client 31 None [] true)).
  left. cbn. discriminate.
Defined.

(* ===================================================================== *)
(** * The dispatcher: the hosted-API branch *)
(* ===================================================================== *)

Section HostedBranch.
Context `{RT : Runtime}.

(** X19: the hosted-API branch of [generate_turn] spawns no process and
    writes no file, and makes at most two requests: two only for [xai]
    and only after the first one failed.  It makes none in two cases
    only: for a provider that is neither [xai] nor one of the four with
    a local tool, when it raises the unknown-provider error, and for
    [google] when the SDK does not load or its client cannot be built,
    when it raises that error. *)
Theorem api_response_requests
        (provider model_name system_prompt turn_prompt : pystr) (w : World) :
  let outcome :=
    UnifiedLLMClient.api_response provider model_name system_prompt turn_prompt w in
  let unknown :=
    provider <> lit "openai" /\ provider <> lit "xai" /\ provider <> lit "groq"
    /\ provider <> lit "anthropic" /\ provider <> lit "google" in
  files (snd outcome) = files w
  /\ exists reqs,
       trace (snd outcome) = trace w ++ map Hosted reqs
       /\ length reqs <= 2
       /\ (unknown ->
           reqs = []
           /\ fst outcome = Raise (ValueError (lit "Unknown provider: " ++ provider)))
       /\ (provider = lit "google" ->
           match genai_client w with
           | Some e => reqs = [] /\ fst outcome = Raise e
           | None => length reqs = 1
           end)
       /\ (reqs = [] ->
           unknown \/ (provider = lit "google" /\ genai_client w <> None))
       /\ (length reqs = 2 ->
           provider = lit "xai"
           /\ exists first e,
                hd_error reqs = Some first /\ hosted_call first w = Raise e).
Proof.
  cbv zeta. unfold UnifiedLLMClient.api_response.
  destruct (str_eqb provider (lit "openai")) eqn:E1.
  { apply str_eqb_eq in E1. subst provider.
    split; [reflexivity|]. eexists [_]. cbn [map length].
    split; [reflexivity|]. split; [lia|]. split; [|split; [|split]].
    - intros [H _]. now contradiction H.
    - discriminate.
    - discriminate.
    - intros H. discriminate H. }
  destruct (str_eqb provider (lit "xai")) eqn:E2.
  { apply str_eqb_eq in E2. subst provider.
    unfold try_except, external. cbn [fst snd files trace].
    destruct (hosted_call _ w) as [text|e] eqn:Hfirst.
    - split; [reflexivity|]. eexists [_]. cbn [map length fst snd files trace].
      split; [reflexivity|]. split; [lia|]. split; [|split; [|split]].
      + intros [_ [H _]]. now contradiction H.
      + discriminate.
      + discriminate.
      + intros H. discriminate H.
    - split; [reflexivity|]. eexists [_; _]. cbn [map length fst snd files trace].
      split; [now rewrite <- app_assoc|]. split; [lia|]. split; [|split; [|split]].
      + intros [_ [H _]]. now contradiction H.
      + discriminate.
      + discriminate.
      + intros _. split; [reflexivity|]. eexists _, e.
        split; [reflexivity|exact Hfirst]. }
  destruct (str_eqb provider (lit "groq")) eqn:E3.
  { apply str_eqb_eq in E3. subst provider.
    split; [reflexivity|]. eexists [_]. cbn [map length].
    split; [reflexivity|]. split; [lia|]. split; [|split; [|split]].
    - intros [_ [_ [H _]]]. now contradiction H.
    - discriminate.
    - discriminate.
    - intros H. discriminate H. }
  destruct (str_eqb provider (lit "anthropic")) eqn:E4.
  { apply str_eqb_eq in E4. subst provider.
    split; [reflexivity|]. eexists [_]. cbn [map length].
    split; [reflexivity|]. split; [lia|]. split; [|split; [|split]].
    - intros [_ [_ [_ [H _]]]]. now contradiction H.
    - discriminate.
    - discriminate.
    - intros H. discriminate H. }
  destruct (str_eqb provider (lit "google")) eqn:E5.
  { apply str_eqb_eq in E5. subst provider.
    unfold bind, external.
    destruct (genai_client w) as [e|] eqn:Hsdk; cbn [fst snd files trace].
    - split; [reflexivity|]. exists []. cbn [map length].
      split; [now rewrite app_nil_r|]. split; [lia|]. split; [|split; [|split]].
      + intros [_ [_ [_ [_ H]]]]. now contradiction H.
      + intros _. split; reflexivity.
      + intros _. right. split; [reflexivity|discriminate].
      + intros H. discriminate H.
    - split; [reflexivity|]. eexists [_]. cbn [map length].
      split; [reflexivity|]. split; [lia|]. split; [|split; [|split]].
      + intros [_ [_ [_ [_ H]]]]. now contradiction H.
      + intros _. reflexivity.
      + discriminate.
      + intros H. discriminate H. }
  assert (Hne : forall q, str_eqb provider q = false -> provider <> q).
  { intros q H E. subst q. now rewrite str_eqb_refl in H. }
  split; [reflexivity|]. exists []. cbn [map length fst snd raise].
  split; [now rewrite app_nil_r|]. split; [lia|]. split; [|split; [|split]].
  - intros _. split; reflexivity.
  - intros H. subst provider. discriminate E5.
  - intros _. left. repeat split; now apply Hne.
  - intros H. discriminate H.
Qed.
End HostedBranch.
